(** * SpeakingwithAI: the live voice session of [App.tsx]

    A shallow embedding of the voice tab of the application: the capture
    callback ([scriptProcessor.onaudioprocess]), the inbound message handler
    ([onmessage]), the error and close callbacks and [stopConversation].

    Conventions of the embedding.
    - React state ([useState]) and refs ([useRef]) are fields of one record,
      [AppState]; a setter call is a field update, the last write wins.
    - Calls on browser and SDK objects ([session.close()], [track.stop()],
      [source.start(t)], [source.stop()], [session.sendRealtimeInput])
      are recorded, in program order, in the [trace] field.
    - Captured samples are IEEE-754 binary64 numbers, as every JavaScript
      number is: Rocq's primitive floats.
    - Times on the output clock ([AudioContext.currentTime],
      [AudioBuffer.duration], [nextStartTimeRef]) are counted in sample frames
      of the 24 kHz output context, the unit in which both the clock and the
      buffer lengths advance; the scheduler's arithmetic is then exact.
    - Each callback runs to completion before the next one starts: the only
      [await] of [onmessage] is on [decodeAudioData], which lives in
      [services/audioUtils] and is taken as a parameter here, together with
      [encode] and [decode]. *)

From Stdlib Require Import ZArith List Bool String Ascii Lia Floats.
Import ListNotations.

Local Open Scope Z_scope.

(** ** JavaScript value semantics used by the handlers *)
Module Js.

(** Truthiness of a string: every string but the empty one. *)
Definition truthy (s : string) : bool :=
  match s with
  | EmptyString => false
  | String _ _ => true
  end.

(** [s += v] where [v] may be [undefined]: string concatenation converts
    [undefined] to the text "undefined". *)
Definition toString (v : option string) : string :=
  match v with
  | Some s => s
  | None => "undefined"%string
  end.

(** The integral part of a number (rounding toward zero); [None] for NaN and
    the infinities.  A finite binary64 is [(-1)^s * m * 2^e]. *)
Definition truncate (x : float) : option Z :=
  match Prim2SF x with
  | S754_zero _ => Some 0
  | S754_infinity _ => None
  | S754_nan => None
  | S754_finite s m e =>
      let mag := if 0 <=? e then Z.shiftl (Zpos m) e
                 else Z.shiftr (Zpos m) (- e) in
      Some (if s then - mag else mag)
  end.

(** The integral part of [x * 2^k] for the real number [x] denotes, computed
    on the decomposition of [x]: no rounding takes place. *)
Definition truncateScaled (x : float) (k : Z) : option Z :=
  match Prim2SF x with
  | S754_zero _ => Some 0
  | S754_infinity _ => None
  | S754_nan => None
  | S754_finite s m e =>
      let mag := if 0 <=? e + k then Z.shiftl (Zpos m) (e + k)
                 else Z.shiftr (Zpos m) (- (e + k)) in
      Some (if s then - mag else mag)
  end.

(** Reduction of an integer modulo 2^16 into [-32768, 32767]. *)
Definition wrap16 (int : Z) : Z :=
  let int16bit := int mod 65536 in
  if 32768 <=? int16bit then int16bit - 65536 else int16bit.

(** ECMAScript [ToInt16], the conversion applied by a store into an
    [Int16Array]: non-finite numbers give 0, finite ones are truncated and
    reduced modulo 2^16. *)
Definition ToInt16 (x : float) : Z :=
  match truncate x with
  | None => 0
  | Some int => wrap16 int
  end.

(** An array length as a number. *)
Definition ofLength {A} (l : list A) : float :=
  PrimFloat.of_uint63 (Uint63.of_Z (Z.of_nat (List.length l))).

End Js.

(** ** [types.ts] *)
Inductive ConnectionStatus : Set :=
| DISCONNECTED
| CONNECTING
| CONNECTED
| ERROR.

Inductive Role : Set := user | gemini.

Record TranscriptEntry : Set := mkEntry {
  role : Role;
  text : string;
  timestamp : Z
}.

(** ** The SDK's message shape, as far as [onmessage] reads it *)
Module GenAI.

Record Transcription : Set := { text : option string }.
Record Blob : Set := { data : option string }.
Record Part : Set := { inlineData : option Blob }.
(** A model turn always comes with its list of parts, possibly empty. *)
Record Content : Set := { parts : list Part }.

Record LiveServerContent : Set := {
  outputTranscription : option Transcription;
  inputTranscription : option Transcription;
  turnComplete : bool;
  modelTurn : option Content;
  interrupted : bool
}.

Record LiveServerMessage : Set := {
  serverContent : option LiveServerContent
}.

End GenAI.

(** ** Browser objects *)

(** An [AudioBuffer] of the output context, by its number of frames. *)
Record AudioBuffer : Set := { frames : N }.

Definition duration (b : AudioBuffer) : Z := Z.of_N (frames b).

(** A [MediaStream] by the identifiers of its tracks. *)
Record MediaStream : Set := { getTracks : list nat }.

(** Calls that leave the program. *)
Inductive Effect : Set :=
| SessionClose (session : nat)
| TrackStop (track : nat)
| SourceStart (source : nat) (when : Z) (dur : Z)
| SourceStop (source : nat)
| SendRealtimeInput (dataText : string) (mimeType : string).

(** What a handler reads from its surroundings: the output clock and the wall
    clock, the latter by the rank of the [Date.now()] call. *)
Record Env : Type := {
  currentTime : Z;
  dateNow : nat -> Z
}.

(** ** The component's state *)
Record AppState : Set := mkApp {
  status : ConnectionStatus;
  history : list TranscriptEntry;
  isGeminiSpeaking : bool;
  isUserSpeaking : bool;
  nextStartTime : Z;                 (* nextStartTimeRef *)
  activeSources : list nat;          (* activeSourcesRef, in insertion order *)
  session : option nat;              (* sessionRef *)
  stream : option MediaStream;       (* streamRef *)
  currentInputTrans : string;        (* currentInputTransRef *)
  currentOutputTrans : string;       (* currentOutputTransRef *)
  sourcesCreated : nat;              (* number of createBufferSource() calls *)
  trace : list Effect
}.

Definition initialState : AppState :=
  mkApp DISCONNECTED [] false false 0 [] None None ""%string ""%string 0%nat [].

Definition setStatus (v : ConnectionStatus) (st : AppState) : AppState :=
  mkApp v (history st) (isGeminiSpeaking st) (isUserSpeaking st)
        (nextStartTime st) (activeSources st) (session st) (stream st)
        (currentInputTrans st) (currentOutputTrans st) (sourcesCreated st)
        (trace st).

Definition setHistory (f : list TranscriptEntry -> list TranscriptEntry)
    (st : AppState) : AppState :=
  mkApp (status st) (f (history st)) (isGeminiSpeaking st) (isUserSpeaking st)
        (nextStartTime st) (activeSources st) (session st) (stream st)
        (currentInputTrans st) (currentOutputTrans st) (sourcesCreated st)
        (trace st).

Definition setIsGeminiSpeaking (v : bool) (st : AppState) : AppState :=
  mkApp (status st) (history st) v (isUserSpeaking st)
        (nextStartTime st) (activeSources st) (session st) (stream st)
        (currentInputTrans st) (currentOutputTrans st) (sourcesCreated st)
        (trace st).

Definition setIsUserSpeaking (v : bool) (st : AppState) : AppState :=
  mkApp (status st) (history st) (isGeminiSpeaking st) v
        (nextStartTime st) (activeSources st) (session st) (stream st)
        (currentInputTrans st) (currentOutputTrans st) (sourcesCreated st)
        (trace st).

Definition setNextStartTime (v : Z) (st : AppState) : AppState :=
  mkApp (status st) (history st) (isGeminiSpeaking st) (isUserSpeaking st)
        v (activeSources st) (session st) (stream st)
        (currentInputTrans st) (currentOutputTrans st) (sourcesCreated st)
        (trace st).

Definition setActiveSources (v : list nat) (st : AppState) : AppState :=
  mkApp (status st) (history st) (isGeminiSpeaking st) (isUserSpeaking st)
        (nextStartTime st) v (session st) (stream st)
        (currentInputTrans st) (currentOutputTrans st) (sourcesCreated st)
        (trace st).

Definition setSession (v : option nat) (st : AppState) : AppState :=
  mkApp (status st) (history st) (isGeminiSpeaking st) (isUserSpeaking st)
        (nextStartTime st) (activeSources st) v (stream st)
        (currentInputTrans st) (currentOutputTrans st) (sourcesCreated st)
        (trace st).

Definition setStream (v : option MediaStream) (st : AppState) : AppState :=
  mkApp (status st) (history st) (isGeminiSpeaking st) (isUserSpeaking st)
        (nextStartTime st) (activeSources st) (session st) v
        (currentInputTrans st) (currentOutputTrans st) (sourcesCreated st)
        (trace st).

Definition setCurrentInputTrans (v : string) (st : AppState) : AppState :=
  mkApp (status st) (history st) (isGeminiSpeaking st) (isUserSpeaking st)
        (nextStartTime st) (activeSources st) (session st) (stream st)
        v (currentOutputTrans st) (sourcesCreated st)
        (trace st).

Definition setCurrentOutputTrans (v : string) (st : AppState) : AppState :=
  mkApp (status st) (history st) (isGeminiSpeaking st) (isUserSpeaking st)
        (nextStartTime st) (activeSources st) (session st) (stream st)
        (currentInputTrans st) v (sourcesCreated st)
        (trace st).

Definition setSourcesCreated (v : nat) (st : AppState) : AppState :=
  mkApp (status st) (history st) (isGeminiSpeaking st) (isUserSpeaking st)
        (nextStartTime st) (activeSources st) (session st) (stream st)
        (currentInputTrans st) (currentOutputTrans st) v
        (trace st).

(** Record the calls [es], after those already made. *)
Definition emit (es : list Effect) (st : AppState) : AppState :=
  mkApp (status st) (history st) (isGeminiSpeaking st) (isUserSpeaking st)
        (nextStartTime st) (activeSources st) (session st) (stream st)
        (currentInputTrans st) (currentOutputTrans st) (sourcesCreated st)
        (trace st ++ es).

(** ** [stopConversation] *)
Definition stopConversation (st : AppState) : AppState :=
  let st :=
    match session st with
    | Some s => setSession None (emit [SessionClose s] st)
    | None => st
    end in
  let st :=
    match stream st with
    | Some ms => setStream None (emit (map TrackStop (getTracks ms)) st)
    | None => st
    end in
  (* every [source.stop()] sits in its own try/catch: a throw is swallowed *)
  let st := emit (map SourceStop (activeSources st)) st in
  let st := setActiveSources [] st in
  let st := setStatus DISCONNECTED st in
  let st := setIsUserSpeaking false st in
  setIsGeminiSpeaking false st.

(** ** The capture callback, [scriptProcessor.onaudioprocess] *)

(** [for (...) sum += inputData[i] * inputData[i]] *)
Definition sumSquares (inputData : list float) : float :=
  fold_left (fun sum x => (sum + x * x)%float) inputData 0%float.

(** [Math.sqrt(sum / inputData.length)] *)
Definition rms (inputData : list float) : float :=
  PrimFloat.sqrt (sumSquares inputData / Js.ofLength inputData)%float.

(** [Math.sqrt(sum / inputData.length) > 0.01]; the literal denotes the
    binary64 nearest to one hundredth, [0x1.47ae147ae147bp-7]. *)
#[warnings="-inexact-float"]
Definition speechActivity (inputData : list float) : bool :=
  (0.01 <? rms inputData)%float.

(** [int16[i] = inputData[i] * 32768] for one sample. *)
Definition pcm16 (sample : float) : Z :=
  Js.ToInt16 (sample * 32768)%float.

Definition floatToPCM16 (inputData : list float) : list Z :=
  map pcm16 inputData.

(** [new Uint8Array(int16.buffer)]: two bytes per sample, low byte first. *)
Definition int16Bytes (int16 : list Z) : list Z :=
  flat_map (fun v => [v mod 256; (v / 256) mod 256]) int16.

Section Handlers.

(** The three functions of [services/audioUtils]: the binary-to-text
    encoding of outbound packets, its inverse, and the decoding of an
    inbound payload into a buffer of the output context. *)
Variable encode : list Z -> string.
Variable decode : string -> list Z.
Variable decodeAudioData : list Z -> AudioBuffer.

Definition onaudioprocess (inputData : list float) (st : AppState)
    : AppState :=
  let st := setIsUserSpeaking (speechActivity inputData) st in
  let int16 := floatToPCM16 inputData in
  let pcmBlob := encode (int16Bytes int16) in
  emit [SendRealtimeInput pcmBlob "audio/pcm;rate=16000"] st.

(** *** [onmessage], block by block *)

(** Lines 98-102: the transcription deltas. *)
Definition handleTranscription (sc : option GenAI.LiveServerContent)
    (st : AppState) : AppState :=
  match option_map GenAI.outputTranscription sc with
  | Some (Some t) =>
      setCurrentOutputTrans
        (currentOutputTrans st ++ Js.toString (GenAI.text t))%string st
  | _ =>
      match option_map GenAI.inputTranscription sc with
      | Some (Some t) =>
          setCurrentInputTrans
            (currentInputTrans st ++ Js.toString (GenAI.text t))%string st
      | _ => st
      end
  end.

(** The entries of one finished turn: the updater passed to [setHistory]. *)
Definition turnEntries (now : nat -> Z) (uText gText : string)
    : list TranscriptEntry :=
  let us := if Js.truthy uText then [mkEntry user uText (now 0%nat)]
            else [] in
  let gs := if Js.truthy gText
            then [mkEntry gemini gText (now (List.length us))]
            else [] in
  us ++ gs.

(** Lines 104-116: the end of a turn. *)
Definition handleTurnComplete (env : Env)
    (sc : option GenAI.LiveServerContent) (st : AppState) : AppState :=
  match option_map GenAI.turnComplete sc with
  | Some true =>
      let uText := currentInputTrans st in
      let gText := currentOutputTrans st in
      let st :=
        if Js.truthy uText || Js.truthy gText
        then setHistory
               (fun prev => prev ++ turnEntries (dateNow env) uText gText) st
        else st in
      let st := setCurrentInputTrans ""%string st in
      setCurrentOutputTrans ""%string st
  | _ => st
  end.

(** [message.serverContent?.modelTurn?.parts[0]?.inlineData?.data] *)
Definition base64AudioOf (sc : option GenAI.LiveServerContent)
    : option string :=
  match sc with
  | Some c =>
      match GenAI.modelTurn c with
      | Some turn =>
          match GenAI.parts turn with
          | p :: _ =>
              match GenAI.inlineData p with
              | Some blob => GenAI.data blob
              | None => None
              end
          | [] => None
          end
      | None => None
      end
  | None => None
  end.

(** Lines 118-137: an audio chunk. *)
Definition handleAudio (env : Env) (sc : option GenAI.LiveServerContent)
    (st : AppState) : AppState :=
  match base64AudioOf sc with
  | Some base64Audio =>
      if Js.truthy base64Audio then
        let st := setIsGeminiSpeaking true st in
        let st :=
          setNextStartTime (Z.max (nextStartTime st) (currentTime env)) st in
        let audioBuffer := decodeAudioData (decode base64Audio) in
        let source := sourcesCreated st in
        let st := setSourcesCreated (S source) st in
        let st :=
          emit [SourceStart source (nextStartTime st) (duration audioBuffer)]
               st in
        let st :=
          setNextStartTime (nextStartTime st + duration audioBuffer) st in
        setActiveSources (activeSources st ++ [source]) st
      else st
  | None => st
  end.

(** Lines 139-144: the model was interrupted. *)
Definition handleInterrupted (sc : option GenAI.LiveServerContent)
    (st : AppState) : AppState :=
  match option_map GenAI.interrupted sc with
  | Some true =>
      let st := emit (map SourceStop (activeSources st)) st in
      let st := setActiveSources [] st in
      let st := setNextStartTime 0 st in
      setIsGeminiSpeaking false st
  | _ => st
  end.

Definition onmessage (env : Env) (message : GenAI.LiveServerMessage)
    (st : AppState) : AppState :=
  let sc := GenAI.serverContent message in
  let st := handleTranscription sc st in
  let st := handleTurnComplete env sc st in
  let st := handleAudio env sc st in
  handleInterrupted sc st.

(** The ['ended'] listener of a source node (lines 129-132). *)
Definition onended (source : nat) (st : AppState) : AppState :=
  let st :=
    setActiveSources
      (filter (fun s => negb (Nat.eqb s source)) (activeSources st)) st in
  match activeSources st with
  | [] => setIsGeminiSpeaking false st
  | _ :: _ => st
  end.

(** The other callbacks of the session. *)
Definition onopen (st : AppState) : AppState := setStatus CONNECTED st.

Definition onerror (st : AppState) : AppState :=
  let st := setStatus ERROR st in
  stopConversation st.

Definition onclose (st : AppState) : AppState := setStatus DISCONNECTED st.

(** [startConversation], cut at its two awaits: up to the microphone
    grant, the resolution of the session promise, and the catch clause. *)
Definition startConversation_begin (st : AppState) : AppState :=
  setStatus CONNECTING st.

Definition startConversation_gotStream (ms : MediaStream) (st : AppState)
    : AppState :=
  setStream (Some ms) st.

Definition startConversation_resolved (s : nat) (st : AppState) : AppState :=
  setSession (Some s) st.

Definition startConversation_catch (st : AppState) : AppState :=
  setStatus ERROR st.

(** Everything that can happen to the component. *)
Inductive Event : Type :=
| Start
| GotStream (ms : MediaStream)
| StartFailed
| Open
| Resolved (s : nat)
| Message (env : Env) (message : GenAI.LiveServerMessage)
| Ended (source : nat)
| AudioProcess (inputData : list float)
| Error
| Close
| Stop.

Definition step (st : AppState) (ev : Event) : AppState :=
  match ev with
  | Start => startConversation_begin st
  | GotStream ms => startConversation_gotStream ms st
  | StartFailed => startConversation_catch st
  | Open => onopen st
  | Resolved s => startConversation_resolved s st
  | Message env message => onmessage env message st
  | Ended source => onended source st
  | AudioProcess inputData => onaudioprocess inputData st
  | Error => onerror st
  | Close => onclose st
  | Stop => stopConversation st
  end.

Definition run (st : AppState) (evs : list Event) : AppState :=
  fold_left step evs st.

End Handlers.

(** ** Reading a trace *)

(** The playback intervals committed to the output timeline, as
    (start, duration), in the order of the [source.start] calls. *)
Definition scheduled (tr : list Effect) : list (Z * Z) :=
  flat_map (fun e => match e with
                     | SourceStart _ when dur => [(when, dur)]
                     | _ => []
                     end) tr.

(** The calls made between two states of one execution. *)
Definition callsSince (before after : AppState) : list Effect :=
  skipn (List.length (trace before)) (trace after).

(** A session that has been given up: nothing is held, nothing plays. *)
Definition tornDown (st : AppState) : Prop :=
  status st = DISCONNECTED /\ session st = None /\ stream st = None
  /\ activeSources st = [] /\ isUserSpeaking st = false
  /\ isGeminiSpeaking st = false.

(** The calls [stopConversation] makes from [st]. *)
Definition releases (st : AppState) : list Effect :=
  match session st with Some s => [SessionClose s] | None => [] end
  ++ match stream st with
     | Some ms => map TrackStop (getTracks ms)
     | None => []
     end
  ++ map SourceStop (activeSources st).

(** ** The speech-activity measure in the spec's words *)


(** ** Messages and deliveries *)

Definition transcription (t : string) : GenAI.Transcription :=
  {| GenAI.text := Some t |}.

(** A message that carries one transcript delta and nothing else. *)
Definition deltaMessage (d : Role * string) : GenAI.LiveServerMessage :=
  {| GenAI.serverContent := Some
       {| GenAI.outputTranscription :=
            match fst d with
            | gemini => Some (transcription (snd d))
            | user => None
            end;
          GenAI.inputTranscription :=
            match fst d with
            | user => Some (transcription (snd d))
            | gemini => None
            end;
          GenAI.turnComplete := false;
          GenAI.modelTurn := None;
          GenAI.interrupted := false |} |}.

(** A message that only ends the turn. *)
Definition turnCompleteMessage : GenAI.LiveServerMessage :=
  {| GenAI.serverContent := Some
       {| GenAI.outputTranscription := None;
          GenAI.inputTranscription := None;
          GenAI.turnComplete := true;
          GenAI.modelTurn := None;
          GenAI.interrupted := false |} |}.

(** A message that only carries one audio chunk. *)
Definition chunkMessage (base64Audio : string) : GenAI.LiveServerMessage :=
  {| GenAI.serverContent := Some
       {| GenAI.outputTranscription := None;
          GenAI.inputTranscription := None;
          GenAI.turnComplete := false;
          GenAI.modelTurn := Some
            {| GenAI.parts :=
                 [ {| GenAI.inlineData :=
                        Some {| GenAI.data := Some base64Audio |} |} ] |};
          GenAI.interrupted := false |} |}.


(** The same message without its input-transcription delta. *)
Definition withoutInputTranscription (m : GenAI.LiveServerMessage)
    : GenAI.LiveServerMessage :=
  {| GenAI.serverContent :=
       option_map
         (fun sc =>
            {| GenAI.outputTranscription := GenAI.outputTranscription sc;
               GenAI.inputTranscription := None;
               GenAI.turnComplete := GenAI.turnComplete sc;
               GenAI.modelTurn := GenAI.modelTurn sc;
               GenAI.interrupted := GenAI.interrupted sc |})
         (GenAI.serverContent m) |}.

(** The texts of role [r] among the deltas [ds], joined in delivery order. *)
Fixpoint textOf (r : Role) (ds : list (Role * string)) : string :=
  match ds with
  | [] => ""%string
  | (user, t) :: rest =>
      match r with
      | user => (t ++ textOf r rest)%string
      | gemini => textOf r rest
      end
  | (gemini, t) :: rest =>
      match r with
      | gemini => (t ++ textOf r rest)%string
      | user => textOf r rest
      end
  end.

(** What a finished turn contributes to the transcript, in the spec's words:
    the user entry if its text is not empty, then the model entry if its text
    is not empty. *)
Definition finalized (uText gText : string) : list (Role * string) :=
  (if String.eqb uText "" then [] else [(user, uText)])
  ++ (if String.eqb gText "" then [] else [(gemini, gText)]).

Definition roleText (e : TranscriptEntry) : Role * string :=
  (role e, text e).

(** The audio payload a message is handled for, if any. *)
Definition audioOf (m : GenAI.LiveServerMessage) : option string :=
  match base64AudioOf (GenAI.serverContent m) with
  | Some base64Audio =>
      if Js.truthy base64Audio then Some base64Audio else None
  | None => None
  end.

Definition isTurnComplete (m : GenAI.LiveServerMessage) : bool :=
  match GenAI.serverContent m with
  | Some sc => GenAI.turnComplete sc
  | None => false
  end.

Definition isInterrupted (m : GenAI.LiveServerMessage) : bool :=
  match GenAI.serverContent m with
  | Some sc => GenAI.interrupted sc
  | None => false
  end.




(** ** The playback schedule in the spec's words *)








Section Deliveries.

Variable encode : list Z -> string.
Variable decode : string -> list Z.
Variable decodeAudioData : list Z -> AudioBuffer.

(** The messages [ms], each with the environment it is handled in,
    delivered in order. *)
Definition deliver (st : AppState)
    (ms : list (Env * GenAI.LiveServerMessage)) : AppState :=
  run encode decode decodeAudioData st
      (map (fun em => Message (fst em) (snd em)) ms).


End Deliveries.

(** ** An instance of [services/audioUtils] for closed examples

    The theorems below hold for every choice of the three functions; closed
    examples need one. *)
Module Sample.

(** Modelled from the spec: [encode] of [services/audioUtils] is not among
    the sources; the spec asks for a lossless binary-to-text encoding.  Here a
    byte is one character. *)
Definition encode (bytes : list Z) : string :=
  string_of_list_ascii (map (fun b => ascii_of_nat (Z.to_nat b)) bytes).

(** Modelled from the spec: [decode] of [services/audioUtils] is not among
    the sources; it is the inverse of [encode]. *)
Definition decode (s : string) : list Z :=
  map (fun c => Z.of_nat (nat_of_ascii c)) (list_ascii_of_string s).

(** Modelled from the spec: [decodeAudioData] of [services/audioUtils] is not
    among the sources; inbound chunks are 16-bit mono PCM, so that a buffer
    has one frame per two bytes. *)
Definition decodeAudioData (bytes : list Z) : AudioBuffer :=
  {| frames := N.of_nat (List.length bytes / 2) |}.

Definition onmessage := onmessage decode decodeAudioData.
Definition deliver := deliver encode decode decodeAudioData.
Definition run := run encode decode decodeAudioData.

(** The clock shows [now]; the wall clock is not looked at. *)
Definition at_ (now : Z) : Env :=
  {| currentTime := now; dateNow := fun _ => 0 |}.

End Sample.

(** The fields the playback scheduler owns. *)
Definition samePlayback (a b : AppState) : Prop :=
  nextStartTime a = nextStartTime b
  /\ activeSources a = activeSources b
  /\ sourcesCreated a = sourcesCreated b
  /\ trace a = trace b.

(** The fields the transcription aggregator owns. *)
Definition sameTranscript (a b : AppState) : Prop :=
  history a = history b
  /\ currentInputTrans a = currentInputTrans b
  /\ currentOutputTrans a = currentOutputTrans b.

(** ** More of [App.tsx]: reading whole runs *)

(** The events that reset the schedule: a message flagged [interrupted]. *)
Definition interrupts (ev : Event) : bool :=
  match ev with
  | Message _ message => isInterrupted message
  | _ => false
  end.


(** A byte payload read back as signed 16-bit integers, low byte first. *)
Fixpoint int16OfBytes (bytes : list Z) : list Z :=
  match bytes with
  | lo :: hi :: rest => Js.wrap16 (lo + 256 * hi) :: int16OfBytes rest
  | _ => []
  end.

(** The "model is speaking" indicator agrees with the set of active
    sources. *)
Definition speakingMatchesSources (st : AppState) : Prop :=
  isGeminiSpeaking st = match activeSources st with
                        | [] => false
                        | _ :: _ => true
                        end.



(** ** JavaScript strings, as far as the components use them

    A string is its sequence of code units; the model keeps the code units
    below 256. *)
Module JsText.

(** The code units below 256 that [String.prototype.trim] strips: the white
    space TAB, VT, FF, SP, NBSP and the line terminators LF, CR. *)
Definition isWhiteSpace (c : ascii) : bool :=
  let n := nat_of_ascii c in
  Nat.eqb n 9 || Nat.eqb n 10 || Nat.eqb n 11 || Nat.eqb n 12
  || Nat.eqb n 13 || Nat.eqb n 32 || Nat.eqb n 160.

Fixpoint trimStart (s : string) : string :=
  match s with
  | EmptyString => EmptyString
  | String c rest => if isWhiteSpace c then trimStart rest else s
  end.

Definition reverse (s : string) : string :=
  string_of_list_ascii (rev (list_ascii_of_string s)).

Definition trimEnd (s : string) : string :=
  reverse (trimStart (reverse s)).

Definition trim (s : string) : string := trimEnd (trimStart s).

(** [s.split(sep)] for a separator of one code unit. *)
Fixpoint split (sep : ascii) (s : string) : list string :=
  match s with
  | EmptyString => [EmptyString]
  | String c rest =>
      if Ascii.eqb c sep then EmptyString :: split sep rest
      else match split sep rest with
           | head :: tail => String c head :: tail
           | [] => [String c EmptyString]
           end
  end.

(** The code unit [c] does not occur in [s]. *)
Fixpoint free (c : ascii) (s : string) : bool :=
  match s with
  | EmptyString => true
  | String c' rest => negb (Ascii.eqb c' c) && free c rest
  end.

(** Every code unit of [s] is white space. *)
Fixpoint blank (s : string) : bool :=
  match s with
  | EmptyString => true
  | String c rest => isWhiteSpace c && blank rest
  end.

(** [s.includes(sub)] *)
Fixpoint includes (sub s : string) : bool :=
  String.prefix sub s
  || match s with
     | EmptyString => false
     | String _ rest => includes sub rest
     end.

(** [array.slice(0, end)] *)
Definition slice0 {A} (l : list A) (final : Z) : list A :=
  let len := Z.of_nat (List.length l) in
  let k := if final <? 0 then Z.max (len + final) 0 else Z.min final len in
  firstn (Z.to_nat k) l.

(** [v || fallback] for a string that may be [undefined]. *)
Definition orElse (v : option string) (fallback : string) : string :=
  match v with
  | Some s => if Js.truthy s then s else fallback
  | None => fallback
  end.

(** [Math.min] on two numbers: NaN if either is, and -0 below +0. *)
Definition min (a b : float) : float :=
  if PrimFloat.is_nan a || PrimFloat.is_nan b then nan
  else if (a <? b)%float then a
  else if (b <? a)%float then b
  else if PrimFloat.is_zero a && PrimFloat.get_sign a then a
  else b.

End JsText.

(** ** The response of [ai.models.generateContent], as far as it is read *)
Module GenAIModels.

Record ResponseContent : Set := { parts : option (list GenAI.Part) }.
Record Candidate : Set := { content : option ResponseContent }.

Record GenerateContentResponse : Set := {
  candidates : option (list Candidate);
  text : option string
}.

(** A thrown value, by its [message]. *)
Record JsError : Set := { message : option string }.

(** [response.candidates?.[0]], then [candidate?.content?.parts]. *)
Definition partsOf (response : GenerateContentResponse)
    : option (list GenAI.Part) :=
  match candidates response with
  | Some (candidate :: _) =>
      match content candidate with
      | Some c => parts c
      | None => None
      end
  | _ => None
  end.

(** The loop [for (const part of ...) if (part.inlineData) {...; break}]:
    the inline data of the first part that has some. *)
Fixpoint firstInlineData (ps : list GenAI.Part) : option GenAI.Blob :=
  match ps with
  | [] => None
  | part :: rest =>
      match GenAI.inlineData part with
      | Some blob => Some blob
      | None => firstInlineData rest
      end
  end.

(** The image a response brings, if any. *)
Definition imageOf (response : GenerateContentResponse)
    : option GenAI.Blob :=
  match partsOf response with
  | Some ps => firstInlineData ps
  | None => None
  end.

(** [`data:image/png;base64,${part.inlineData.data}`] *)
Definition pngDataUrl (blob : GenAI.Blob) : string :=
  ("data:image/png;base64," ++ Js.toString (GenAI.data blob))%string.

(** [err.message?.includes("Requested entity was not found")] *)
Definition entityNotFound (err : JsError) : bool :=
  match message err with
  | Some m => JsText.includes "Requested entity was not found" m
  | None => false
  end.

End GenAIModels.

(** The inline data of the parts that have some, in order. *)
Definition inlineBlobs (ps : list GenAI.Part) : list GenAI.Blob :=
  flat_map (fun part => match GenAI.inlineData part with
                        | Some blob => [blob]
                        | None => []
                        end) ps.

(** ** [components/ImageEditor.tsx] *)
Module Editor.

Record CropBox : Set := {
  x : float;
  y : float;
  width : float;
  height : float
}.

(** What the handlers do outside the component. *)
Inductive Call : Set :=
| OpenSelectKey
| GenerateContent (data : option string) (mimeType : option string)
                  (promptText : string)
| Alert (text : string).

Record State : Set := mk {
  history : list string;
  pointer : Z;
  prompt : string;
  isProcessing : bool;
  isCropping : bool;
  cropBox : option CropBox;
  isDragging : bool;
  dragStart : float * float;
  calls : list Call
}.

Definition initial : State :=
  mk [] (-1) ""%string false false None false (0%float, 0%float) [].

Definition setHistory (v : list string) (st : State) : State :=
  mk v (pointer st) (prompt st) (isProcessing st) (isCropping st)
     (cropBox st) (isDragging st) (dragStart st) (calls st).

Definition setPointer (v : Z) (st : State) : State :=
  mk (history st) v (prompt st) (isProcessing st) (isCropping st)
     (cropBox st) (isDragging st) (dragStart st) (calls st).

Definition setPrompt (v : string) (st : State) : State :=
  mk (history st) (pointer st) v (isProcessing st) (isCropping st)
     (cropBox st) (isDragging st) (dragStart st) (calls st).

Definition setIsProcessing (v : bool) (st : State) : State :=
  mk (history st) (pointer st) (prompt st) v (isCropping st)
     (cropBox st) (isDragging st) (dragStart st) (calls st).

Definition setIsCropping (v : bool) (st : State) : State :=
  mk (history st) (pointer st) (prompt st) (isProcessing st) v
     (cropBox st) (isDragging st) (dragStart st) (calls st).

Definition setCropBox (v : option CropBox) (st : State) : State :=
  mk (history st) (pointer st) (prompt st) (isProcessing st) (isCropping st)
     v (isDragging st) (dragStart st) (calls st).

Definition setIsDragging (v : bool) (st : State) : State :=
  mk (history st) (pointer st) (prompt st) (isProcessing st) (isCropping st)
     (cropBox st) v (dragStart st) (calls st).

Definition setDragStart (v : float * float) (st : State) : State :=
  mk (history st) (pointer st) (prompt st) (isProcessing st) (isCropping st)
     (cropBox st) (isDragging st) v (calls st).

Definition call (cs : list Call) (st : State) : State :=
  mk (history st) (pointer st) (prompt st) (isProcessing st) (isCropping st)
     (cropBox st) (isDragging st) (dragStart st) (calls st ++ cs).

(** [currentImage]: the entry under the pointer, [null] outside the list. *)
Definition currentImage (st : State) : option string :=
  if (0 <=? pointer st) && (pointer st <? Z.of_nat (List.length (history st)))
  then nth_error (history st) (Z.to_nat (pointer st))
  else None.

(** [!currentImage] is false. *)
Definition hasImage (st : State) : bool :=
  match currentImage st with
  | Some image => Js.truthy image
  | None => false
  end.

Definition canUndo (st : State) : bool := 0 <? pointer st.

Definition canRedo (st : State) : bool :=
  pointer st <? Z.of_nat (List.length (history st)) - 1.

(** [reader.onload] of [handleFileChange]. *)
Definition fileLoaded (result : string) (st : State) : State :=
  let st := setHistory [result] st in
  let st := setPointer 0 st in
  let st := setIsCropping false st in
  setCropBox None st.

Definition undo (st : State) : State :=
  if 0 <? pointer st then setPointer (pointer st - 1) st else st.

Definition redo (st : State) : State :=
  if pointer st <? Z.of_nat (List.length (history st)) - 1
  then setPointer (pointer st + 1) st
  else st.

(** The step shared by [handleEdit] and [executeCrop]: the history and the
    pointer are those of the render the handler was created in, [seen]. *)
Definition pushImage (seen : State) (image : string) (st : State) : State :=
  let newHistory := JsText.slice0 (history seen) (pointer seen + 1)
                    ++ [image] in
  let st := setHistory newHistory st in
  setPointer (Z.of_nat (List.length newHistory) - 1) st.

(** The crop button of the toolbar. *)
Definition toggleCrop (st : State) : State :=
  let st := setIsCropping (negb (isCropping st)) st in
  setCropBox None st.

(** What [executeCrop] finds in the page: the image element, the 2D context
    of a new canvas, and what the canvas holds once the region is drawn. *)
Record CropPage : Set := {
  imagePresent : bool;
  context2d : bool;
  toDataURL : string
}.

Definition executeCrop (page : CropPage) (st : State) : State :=
  match cropBox st with
  | Some _ =>
      if imagePresent page && hasImage st && context2d page then
        let st := pushImage st (toDataURL page) st in
        let st := setIsCropping false st in
        setCropBox None st
      else st
  | None => st
  end.

(** A mouse event with what the handlers read from the page: the position of
    the container, if mounted, and the displayed size of the image, if
    any. *)
Record Mouse : Set := {
  clientX : float;
  clientY : float;
  container : option (float * float);
  image : option (float * float)
}.

Definition handleMouseDown (e : Mouse) (st : State) : State :=
  match isCropping st, container e with
  | true, Some (rectLeft, rectTop) =>
      let x := (clientX e - rectLeft)%float in
      let y := (clientY e - rectTop)%float in
      let st := setIsDragging true st in
      let st := setDragStart (x, y) st in
      setCropBox (Some {| x := x; y := y; width := 0; height := 0 |}) st
  | _, _ => st
  end.

Definition handleMouseMove (e : Mouse) (st : State) : State :=
  match isCropping st && isDragging st, container e with
  | true, Some (rectLeft, rectTop) =>
      let x := (clientX e - rectLeft)%float in
      let y := (clientY e - rectTop)%float in
      let left := JsText.min x (fst (dragStart st)) in
      let top := JsText.min y (snd (dragStart st)) in
      let width := PrimFloat.abs (x - fst (dragStart st))%float in
      let height := PrimFloat.abs (y - snd (dragStart st))%float in
      match image e with
      | Some (imgWidth, imgHeight) =>
          let constrainedWidth := JsText.min width (imgWidth - left)%float in
          let constrainedHeight :=
            JsText.min height (imgHeight - top)%float in
          setCropBox (Some {| x := left; y := top;
                              width := constrainedWidth;
                              height := constrainedHeight |}) st
      | None => st
      end
  | _, _ => st
  end.

Definition handleMouseUp (st : State) : State := setIsDragging false st.

(** *** [handleEdit] *)

(** The guard, on the render the handler was created in. *)
Definition accepts (seen : State) : bool :=
  hasImage seen && Js.truthy (JsText.trim (prompt seen))
  && negb (isProcessing seen).

(** [currentImage.split(',')[1]] and
    [currentImage.split(';')[0].split(':')[1]]. *)
Definition base64DataOf (image : string) : option string :=
  nth_error (JsText.split "," image) 1.

Definition mimeTypeOf (image : string) : option string :=
  match JsText.split ";" image with
  | first :: _ => nth_error (JsText.split ":" first) 1
  | [] => None
  end.

(** Up to the call of [generateContent]: the key dialog if no key is
    selected (taken not to throw), the busy flag, the request.  The guard
    has passed: the render has a current image. *)
Definition requestEdit (seen : State) (hasKey : bool) (st : State) : State :=
  let st := if hasKey then st else call [OpenSelectKey] st in
  let st := setIsProcessing true st in
  match currentImage seen with
  | Some image =>
      call [GenerateContent (base64DataOf image) (mimeTypeOf image)
                            (prompt seen)] st
  | None => st
  end.

(** The [catch] clause. *)
Definition editFailed (err : GenAIModels.JsError) (st : State) : State :=
  if GenAIModels.entityNotFound err then call [OpenSelectKey] st
  else call [Alert ("Failed to edit image: "
                    ++ JsText.orElse (GenAIModels.message err)
                                     "Internal error"
                    ++ ".")%string] st.

(** How the awaited request ends. *)
Inductive Outcome : Set :=
| Responded (response : GenAIModels.GenerateContentResponse)
| Threw (err : GenAIModels.JsError).

(** From the answer of [generateContent] to the end of [finally]. *)
Definition settleEdit (seen : State) (outcome : Outcome) (st : State)
    : State :=
  let st :=
    match outcome with
    | Responded response =>
        match GenAIModels.imageOf response with
        | Some blob =>
            let st := pushImage seen (GenAIModels.pngDataUrl blob) st in
            setPrompt ""%string st
        | None =>
            call [Alert ("Model response did not include an image. "
                         ++ JsText.orElse (GenAIModels.text response)
                                          "Reason unknown.")%string] st
        end
    | Threw err => editFailed err st
    end in
  setIsProcessing false st.

(** [handleEdit] with nothing else happening while it waits; [keyCheck] is
    the answer of [hasSelectedApiKey], or what it threw. *)
Definition handleEdit (keyCheck : bool + GenAIModels.JsError)
    (outcome : Outcome) (st : State) : State :=
  if accepts st then
    match keyCheck with
    | inl hasKey => settleEdit st outcome (requestEdit st hasKey st)
    | inr err => setIsProcessing false (editFailed err st)
    end
  else st.

(** Whatever a handler of the component can be called with. *)
Inductive Event : Set :=
| FileLoaded (result : string)
| PromptSet (text : string)
| Undo
| Redo
| ToggleCrop
| MouseDown (e : Mouse)
| MouseMove (e : Mouse)
| MouseUp
| ExecuteCrop (page : CropPage)
| EditRequested (seen : State) (hasKey : bool)
| EditSettled (seen : State) (outcome : Outcome)
| EditKeyCheckThrew (err : GenAIModels.JsError).

Definition step (st : State) (ev : Event) : State :=
  match ev with
  | FileLoaded result => fileLoaded result st
  | PromptSet text => setPrompt text st
  | Undo => undo st
  | Redo => redo st
  | ToggleCrop => toggleCrop st
  | MouseDown e => handleMouseDown e st
  | MouseMove e => handleMouseMove e st
  | MouseUp => handleMouseUp st
  | ExecuteCrop page => executeCrop page st
  | EditRequested seen hasKey => requestEdit seen hasKey st
  | EditSettled seen outcome => settleEdit seen outcome st
  | EditKeyCheckThrew err => setIsProcessing false (editFailed err st)
  end.

Definition run (st : State) (evs : list Event) : State :=
  fold_left step evs st.

(** The pointer designates an entry, or nothing is loaded. *)
Definition wellFormed (st : State) : Prop :=
  (history st = [] /\ pointer st = -1)
  \/ 0 <= pointer st < Z.of_nat (List.length (history st)).

End Editor.

(** [executeCrop] goes ahead: a region is drawn, the image element is in
    the page, an image is current and the canvas gives a 2D context. *)
Definition cropReady (page : Editor.CropPage) (st : Editor.State) : bool :=
  match Editor.cropBox st with
  | Some _ =>
      Editor.imagePresent page && Editor.hasImage st && Editor.context2d page
  | None => false
  end.

(** The image [handleEdit] receives, if the key check does not throw and
    the model answers with one. *)
Definition arrivedImage (keyCheck : bool + GenAIModels.JsError)
    (outcome : Editor.Outcome) : option GenAI.Blob :=
  match keyCheck, outcome with
  | inl _, Editor.Responded response => GenAIModels.imageOf response
  | _, _ => None
  end.

(** ** [components/ChatBot.tsx] *)
Module Chat.

Inductive Role : Set := user | model.

Record ChatMessage : Set := { role : Role; text : string }.

Inductive Call : Set :=
| ChatsCreate
| SendMessage (chat : nat) (message : string).

Record State : Set := mk {
  messages : list ChatMessage;
  input : string;
  isTyping : bool;
  chatRef : option nat;
  chatsCreated : nat;
  calls : list Call
}.

Definition initial : State := mk [] ""%string false None 0%nat [].

Definition addMessage (m : ChatMessage) (st : State) : State :=
  mk (messages st ++ [m]) (input st) (isTyping st) (chatRef st)
     (chatsCreated st) (calls st).

Definition setInput (v : string) (st : State) : State :=
  mk (messages st) v (isTyping st) (chatRef st) (chatsCreated st) (calls st).

Definition setIsTyping (v : bool) (st : State) : State :=
  mk (messages st) (input st) v (chatRef st) (chatsCreated st) (calls st).

Definition setChatRef (v : option nat) (st : State) : State :=
  mk (messages st) (input st) (isTyping st) v (chatsCreated st) (calls st).

Definition call (cs : list Call) (st : State) : State :=
  mk (messages st) (input st) (isTyping st) (chatRef st) (chatsCreated st)
     (calls st ++ cs).

Definition created (st : State) : State :=
  mk (messages st) (input st) (isTyping st) (chatRef st)
     (S (chatsCreated st)) (calls st).

Definition fallbackText : string := "Sorry, I could not generate a response.".

Definition errorText : string :=
  "Error connecting to Gemini. Please try again.".

(** The [catch] and [finally] clauses. *)
Definition sendFailed (st : State) : State :=
  setIsTyping false (addMessage {| role := model; text := errorText |} st).

(** The guard of [handleSend]. *)
Definition accepts (st : State) : bool :=
  Js.truthy (JsText.trim (input st)) && negb (isTyping st).

(** What happens between the start of the [try] block and the call of
    [sendMessage]: nothing, or [new GoogleGenAI] throws, or
    [ai.chats.create] does. *)
Inductive Setup : Set := SetupDone | ClientThrows | CreateThrows.

(** [handleSend] up to its await, or to its end when the setup throws. *)
Definition sendBegin (setup : Setup) (st : State) : State :=
  let message := input st in
  let st := addMessage {| role := user; text := message |} st in
  let st := setInput ""%string st in
  let st := setIsTyping true st in
  match setup with
  | ClientThrows => sendFailed st
  | _ =>
      match chatRef st with
      | Some chat => call [SendMessage chat message] st
      | None =>
          let st := call [ChatsCreate] st in
          match setup with
          | CreateThrows => sendFailed st
          | _ =>
              let chat := chatsCreated st in
              let st := setChatRef (Some chat) (created st) in
              call [SendMessage chat message] st
          end
      end
  end.

(** From the answer of [sendMessage] on: [reply] is [response.text], or
    nothing when the call was rejected. *)
Definition sendSettle (reply : option (option string)) (st : State) : State :=
  match reply with
  | Some responseText =>
      setIsTyping false
        (addMessage {| role := model;
                       text := JsText.orElse responseText fallbackText |} st)
  | None => sendFailed st
  end.

Inductive Event : Set :=
| InputSet (text : string)
| Send (setup : Setup) (typedMeanwhile : list string)
       (reply : option (option string)).

(** One event of the chat: the user edits the input field, or presses send;
    while a send waits for its answer the user may go on typing. *)
Definition step (st : State) (ev : Event) : State :=
  match ev with
  | InputSet text => setInput text st
  | Send setup typedMeanwhile reply =>
      if accepts st then
        let st := sendBegin setup st in
        if isTyping st then
          sendSettle reply
            (fold_left (fun s text => setInput text s) typedMeanwhile st)
        else st
      else st
  end.

Definition run (st : State) (evs : list Event) : State :=
  fold_left step evs st.

(** A transcript made of exchanges: a user message, then a model message
    with some text. *)
Fixpoint exchanges (ms : list ChatMessage) : bool :=
  match ms with
  | [] => true
  | u :: rest =>
      match role u, rest with
      | user, m :: rest' =>
          match role m with
          | model => Js.truthy (text m) && exchanges rest'
          | user => false
          end
      | _, _ => false
      end
  end.

End Chat.

(** Every message sent so far went to the chat made first. *)
Definition oneChat (st : Chat.State) : Prop :=
  (Chat.chatRef st = None /\ Chat.chatsCreated st = 0%nat
   \/ Chat.chatRef st = Some 0%nat /\ Chat.chatsCreated st = 1%nat)
  /\ Forall (fun c => match c with
                      | Chat.SendMessage chat _ => chat = 0%nat
                      | Chat.ChatsCreate => True
                      end) (Chat.calls st).

(** ** The image generator (a component next to [ImageEditor]) *)
Module Generator.

Module Image.
Record GeneratedImage : Set := {
  url : string;
  prompt : string;
  timestamp : Z
}.
End Image.

Inductive Size : Set := K1 | K2 | K4.

Inductive Call : Set :=
| OpenSelectKey
| GenerateContent (promptText : string) (imageSize : Size)
| Alert (text : string).

Record State : Set := mk {
  prompt : string;
  size : Size;
  isGenerating : bool;
  images : list Image.GeneratedImage;
  calls : list Call
}.

Definition initial : State := mk ""%string K1 false [] [].

Definition setPrompt (v : string) (st : State) : State :=
  mk v (size st) (isGenerating st) (images st) (calls st).

Definition setSize (v : Size) (st : State) : State :=
  mk (prompt st) v (isGenerating st) (images st) (calls st).

Definition setIsGenerating (v : bool) (st : State) : State :=
  mk (prompt st) (size st) v (images st) (calls st).

Definition setImages
    (f : list Image.GeneratedImage -> list Image.GeneratedImage)
    (st : State) : State :=
  mk (prompt st) (size st) (isGenerating st) (f (images st)) (calls st).

Definition call (cs : list Call) (st : State) : State :=
  mk (prompt st) (size st) (isGenerating st) (images st) (calls st ++ cs).

(** The guard of [handleGenerate], on the render the handler was created
    in. *)
Definition accepts (seen : State) : bool :=
  Js.truthy (JsText.trim (prompt seen)) && negb (isGenerating seen).

(** Up to the call of [generateContent]; the key dialog is taken not to
    throw. *)
Definition requestImage (seen : State) (hasKey : bool) (st : State) : State :=
  let st := if hasKey then st else call [OpenSelectKey] st in
  let st := setIsGenerating true st in
  call [GenerateContent (prompt seen) (size seen)] st.

(** The [catch] clause. *)
Definition generateFailed (err : GenAIModels.JsError) (st : State) : State :=
  if GenAIModels.entityNotFound err then call [OpenSelectKey] st
  else call [Alert ("Failed to generate image: "
                    ++ JsText.orElse (GenAIModels.message err)
                                     "Internal error")%string] st.

Inductive Outcome : Set :=
| Responded (response : GenAIModels.GenerateContentResponse)
| Threw (err : GenAIModels.JsError).

(** From the answer of [generateContent] to the end of [finally]; [now] is
    the reading of [Date.now()]. *)
Definition settleImage (seen : State) (outcome : Outcome) (now : Z)
    (st : State) : State :=
  let st :=
    match outcome with
    | Responded response =>
        let st :=
          match GenAIModels.imageOf response with
          | Some blob =>
              setImages
                (fun prev =>
                   {| Image.url := GenAIModels.pngDataUrl blob;
                      Image.prompt := prompt seen;
                      Image.timestamp := now |} :: prev) st
          | None =>
              call [Alert ("No image was returned. "
                           ++ JsText.orElse (GenAIModels.text response)
                                            "Reason unknown.")%string] st
          end in
        setPrompt ""%string st
    | Threw err => generateFailed err st
    end in
  setIsGenerating false st.

Inductive Event : Set :=
| PromptSet (text : string)
| SizeSet (s : Size)
| GenerateRequested (seen : State) (hasKey : bool)
| GenerateSettled (seen : State) (outcome : Outcome) (now : Z)
| GenerateKeyCheckThrew (err : GenAIModels.JsError).

Definition step (st : State) (ev : Event) : State :=
  match ev with
  | PromptSet text => setPrompt text st
  | SizeSet s => setSize s st
  | GenerateRequested seen hasKey => requestImage seen hasKey st
  | GenerateSettled seen outcome now => settleImage seen outcome now st
  | GenerateKeyCheckThrew err => setIsGenerating false (generateFailed err st)
  end.

Definition run (st : State) (evs : list Event) : State :=
  fold_left step evs st.

(** [handleGenerate] with nothing else happening while it waits. *)
Definition handleGenerate (keyCheck : bool + GenAIModels.JsError)
    (outcome : Outcome) (now : Z) (st : State) : State :=
  if accepts st then
    match keyCheck with
    | inl hasKey => settleImage st outcome now (requestImage st hasKey st)
    | inr err => setIsGenerating false (generateFailed err st)
    end
  else st.

End Generator.

(** * Teardown *)

Lemma stopConversation_trace (st : AppState) :
  trace (stopConversation st) = trace st ++ releases st.
Proof.
  unfold stopConversation, releases.
  destruct (session st) as [s|] eqn:Hs; cbn;
    destruct (stream st) as [ms|] eqn:Hm; cbn;
    rewrite ?Hm; cbn; rewrite <- ?app_assoc; reflexivity.
Qed.

Lemma stopConversation_tornDown (st : AppState) :
  tornDown (stopConversation st).
Proof.
  destruct st as [s h g u n a [se|] [sm|] ci co c t];
    unfold tornDown, stopConversation; cbn; repeat split.
Qed.


Lemma callsSince_app (st st' : AppState) (es : list Effect) :
  trace st' = trace st ++ es -> callsSince st st' = es.
Proof.
  unfold callsSince. intros ->.
  rewrite skipn_app, skipn_all, Nat.sub_diag. reflexivity.
Qed.


(** C4 (code).  [onerror] sets the status to [ERROR] and then calls
    [stopConversation], whose own [setStatus(DISCONNECTED)] is the last write:
    whatever the state the error arrives in, the handler ends with the status
    [DISCONNECTED], never [ERROR], everything torn down. *)
Theorem onerror_ends_disconnected (st : AppState) :
  status (onerror st) = DISCONNECTED
  /\ status (onerror st) <> ERROR
  /\ tornDown (onerror st).
Proof.
  assert (Htd : tornDown (onerror st))
    by (unfold onerror; apply stopConversation_tornDown).
  repeat split; try apply Htd.
  destruct Htd as [-> _]. discriminate.
Qed.

(** C5 (code).  [stopConversation] closes the session, stops the tracks and
    the playing sources and appends nothing to the transcript, but it writes
    neither [nextStartTimeRef] nor the two accumulators: all three survive the
    teardown unchanged. *)
Theorem stopConversation_keeps_schedule_and_accumulators (st : AppState) :
  nextStartTime (stopConversation st) = nextStartTime st
  /\ currentInputTrans (stopConversation st) = currentInputTrans st
  /\ currentOutputTrans (stopConversation st) = currentOutputTrans st
  /\ history (stopConversation st) = history st
  /\ callsSince st (stopConversation st) = releases st
  /\ session (stopConversation st) = None
  /\ stream (stopConversation st) = None
  /\ activeSources (stopConversation st) = [].
Proof.
  split; [|split; [|split; [|split; [|split]]]];
    try (destruct st as [s h g u n a [se|] [sm|] ci co c t]; reflexivity).
  - apply callsSince_app, stopConversation_trace.
  - pose proof (stopConversation_tornDown st) as Htd.
    unfold tornDown in Htd. tauto.
Qed.

(** * The message handler *)

(** Unfolding of the handlers proper, whatever shorter name is in scope. *)
Ltac open_onmessage := unfold onmessage.
Ltac open_handleAudio := unfold handleAudio.

Section MessageProperties.

Variable encode : list Z -> string.
Variable decode : string -> list Z.
Variable decodeAudioData : list Z -> AudioBuffer.

Let onmessage := onmessage decode decodeAudioData.
Let handleAudio := handleAudio decode decodeAudioData.
Let deliver := deliver encode decode decodeAudioData.



Lemma handleAudio_transcript env sc st :
  sameTranscript (handleAudio env sc st) st.
Proof.
  unfold handleAudio; open_handleAudio.
  destruct (base64AudioOf sc) as [s|]; [|repeat split].
  destruct (Js.truthy s); repeat split.
Qed.

Lemma handleInterrupted_transcript sc st :
  sameTranscript (handleInterrupted sc st) st.
Proof.
  unfold handleInterrupted.
  destruct sc as [sc|]; cbn; [|repeat split].
  destruct (GenAI.interrupted sc); repeat split.
Qed.

Lemma handleInterrupted_not sc st :
  isInterrupted {| GenAI.serverContent := sc |} = false ->
  handleInterrupted sc st = st.
Proof.
  unfold isInterrupted, handleInterrupted; cbn.
  destruct sc as [sc|]; cbn; [|reflexivity].
  intros ->. reflexivity.
Qed.

(** One chunk, as the code handles it. *)
Lemma handleAudio_chunk env sc st s :
  audioOf {| GenAI.serverContent := sc |} = Some s ->
  let startTime := Z.max (nextStartTime st) (currentTime env) in
  let d := duration (decodeAudioData (decode s)) in
  let st' := handleAudio env sc st in
  nextStartTime st' = startTime + d
  /\ trace st' = trace st ++ [SourceStart (sourcesCreated st) startTime d]
  /\ activeSources st' = activeSources st ++ [sourcesCreated st]
  /\ sourcesCreated st' = S (sourcesCreated st)
  /\ isGeminiSpeaking st' = true.
Proof.
  unfold audioOf, handleAudio; open_handleAudio; cbn.
  destruct (base64AudioOf sc) as [b|]; [|discriminate].
  destruct (Js.truthy b); [|discriminate].
  intros [= ->]. cbn. repeat split.
Qed.

Lemma handleAudio_none env sc st :
  audioOf {| GenAI.serverContent := sc |} = None ->
  handleAudio env sc st = st.
Proof.
  unfold audioOf, handleAudio; open_handleAudio; cbn.
  destruct (base64AudioOf sc) as [b|]; [|reflexivity].
  destruct (Js.truthy b); [discriminate|reflexivity].
Qed.


(** ** The schedule in the spec's words *)

Lemma scheduled_app (a b : list Effect) :
  scheduled (a ++ b) = scheduled a ++ scheduled b.
Proof. unfold scheduled. apply flat_map_app. Qed.









(** ** The handler schedules as the spec says *)





(** ** Interruption *)




(** ** Transcription *)

Lemma append_assoc (a b c : string) :
  ((a ++ b) ++ c = a ++ (b ++ c))%string.
Proof. induction a as [|ch a IH]; cbn; [reflexivity | now rewrite IH]. Qed.

Lemma append_empty_r (a : string) : (a ++ "")%string = a.
Proof. induction a as [|ch a IH]; cbn; [reflexivity | now rewrite IH]. Qed.

Lemma truthy_eqb (s : string) : Js.truthy s = negb (String.eqb s "").
Proof. destruct s; reflexivity. Qed.

Lemma truthy_false (s : string) : Js.truthy s = false <-> s = ""%string.
Proof. destruct s; cbn; split; congruence. Qed.

Lemma turnEntries_finalized (now : nat -> Z) (uText gText : string) :
  map roleText (turnEntries now uText gText) = finalized uText gText.
Proof.
  unfold turnEntries, finalized. rewrite !truthy_eqb.
  destruct (String.eqb uText ""), (String.eqb gText ""); reflexivity.
Qed.

Lemma finalized_spec (uText gText : string) (r : Role) (t : string) :
  In (r, t) (finalized uText gText) <->
  t <> ""%string /\ (r = user /\ t = uText \/ r = gemini /\ t = gText).
Proof.
  unfold finalized.
  destruct (String.eqb_spec uText ""), (String.eqb_spec gText "");
    cbn; split; intros H.
  all: repeat match goal with
         | H : _ \/ _ |- _ => destruct H
         | H : _ /\ _ |- _ => destruct H
         | H : False |- _ => destruct H
         | H : (_, _) = (_, _) |- _ => injection H as <- <-
         end; subst; auto; try congruence.
Qed.

Lemma onmessage_delta env d st :
  onmessage env (deltaMessage d) st
  = match fst d with
    | user => setCurrentInputTrans (currentInputTrans st ++ snd d)%string st
    | gemini => setCurrentOutputTrans (currentOutputTrans st ++ snd d)%string st
    end.
Proof. destruct d as [[|] t]; reflexivity. Qed.

Lemma deliver_deltas (ds : list (Env * (Role * string))) :
  forall st,
    let st1 := deliver st (map (fun d => (fst d, deltaMessage (snd d))) ds) in
    currentInputTrans st1
    = (currentInputTrans st ++ textOf user (map snd ds))%string
    /\ currentOutputTrans st1
       = (currentOutputTrans st ++ textOf gemini (map snd ds))%string
    /\ history st1 = history st
    /\ samePlayback st1 st.
Proof.
  induction ds as [|[env [r t]] ds IH]; intros st.
  - cbn. rewrite !append_empty_r. repeat split.
  - cbn zeta. cbn [map fst snd].
    change (deliver st ((env, deltaMessage (r, t)) :: ?l))
      with (deliver (onmessage env (deltaMessage (r, t)) st) l).
    rewrite onmessage_delta. cbn [fst snd].
    destruct (IH (match r with
                  | user =>
                      setCurrentInputTrans (currentInputTrans st ++ t)%string st
                  | gemini =>
                      setCurrentOutputTrans (currentOutputTrans st ++ t)%string st
                  end)) as (Hi & Ho & Hh & Hp).
    rewrite Hi, Ho, Hh. unfold samePlayback in *.
    destruct r; cbn in *; rewrite ?append_assoc; repeat split; tauto.
Qed.

Lemma handleTurnComplete_yes env sc st :
  GenAI.turnComplete sc = true ->
  let st' := handleTurnComplete env (Some sc) st in
  currentInputTrans st' = ""%string
  /\ currentOutputTrans st' = ""%string
  /\ history st'
     = history st
       ++ turnEntries (dateNow env) (currentInputTrans st)
                      (currentOutputTrans st).
Proof.
  intros H. unfold handleTurnComplete. cbn. rewrite H.
  destruct (Js.truthy (currentInputTrans st)) eqn:Hu;
    destruct (Js.truthy (currentOutputTrans st)) eqn:Hg; cbn;
    repeat split.
  unfold turnEntries. rewrite Hu, Hg. cbn. now rewrite app_nil_r.
Qed.

(** What the two last blocks of [onmessage] leave to the transcript. *)
Lemma onmessage_transcript env m st :
  sameTranscript
    (onmessage env m st)
    (handleTurnComplete env (GenAI.serverContent m)
       (handleTranscription (GenAI.serverContent m) st)).
Proof.
  unfold onmessage; open_onmessage.
  set (st2 := handleTurnComplete _ _ _).
  pose proof (handleAudio_transcript env (GenAI.serverContent m) st2)
    as (A1 & A2 & A3).
  pose proof (handleInterrupted_transcript (GenAI.serverContent m)
                (handleAudio env (GenAI.serverContent m) st2))
    as (B1 & B2 & B3).
  fold handleAudio. unfold sameTranscript.
  rewrite B1, B2, B3, A1, A2, A3. repeat split.
Qed.

(** C3 (transcript ordering).  Deltas delivered one per message are joined,
    role by role, in delivery order behind what the accumulators held, and
    append nothing to the log; the turn-complete that follows appends to the
    log the user entry, if its text is not empty, then the model entry, if its
    text is not empty, and nothing else. *)
Theorem transcript_ordering (st : AppState)
    (ds : list (Env * (Role * string))) (env : Env) :
  let st1 := deliver st (map (fun d => (fst d, deltaMessage (snd d))) ds) in
  let uText := (currentInputTrans st ++ textOf user (map snd ds))%string in
  let gText := (currentOutputTrans st ++ textOf gemini (map snd ds))%string in
  let st2 := onmessage env turnCompleteMessage st1 in
  currentInputTrans st1 = uText
  /\ currentOutputTrans st1 = gText
  /\ history st1 = history st
  /\ history st2 = history st ++ turnEntries (dateNow env) uText gText
  /\ map roleText (turnEntries (dateNow env) uText gText)
     = finalized uText gText.
Proof.
  intros st1 uText gText st2.
  destruct (deliver_deltas ds st) as (Hi & Ho & Hh & _).
  fold st1 in Hi, Ho, Hh. fold uText in Hi. fold gText in Ho.
  split; [exact Hi|]. split; [exact Ho|]. split; [exact Hh|].
  split; [|apply turnEntries_finalized].
  destruct (onmessage_transcript env turnCompleteMessage st1) as (H & _).
  fold st2 in H. rewrite H. cbn [GenAI.serverContent turnCompleteMessage].
  destruct (handleTurnComplete_yes env
              {| GenAI.outputTranscription := None;
                 GenAI.inputTranscription := None;
                 GenAI.turnComplete := true;
                 GenAI.modelTurn := None;
                 GenAI.interrupted := false |}
              (handleTranscription
                 (Some {| GenAI.outputTranscription := None;
                          GenAI.inputTranscription := None;
                          GenAI.turnComplete := true;
                          GenAI.modelTurn := None;
                          GenAI.interrupted := false |}) st1) eq_refl)
    as (_ & _ & Hh2).
  rewrite Hh2. cbn. rewrite Hi, Ho, Hh. reflexivity.
Qed.

(** C7 (empty turn, unconditional reset).  When a message flagged
    [turnComplete] has been handled, both accumulators are empty, whatever
    they held; the log has grown by exactly the entries of the turn, that is
    by one entry for each role whose accumulated text is not empty (user
    first) and by none for a role whose text is empty; with both texts empty
    the log is unchanged. *)
Theorem empty_turn_and_reset (env : Env) (m : GenAI.LiveServerMessage)
    (st : AppState) :
  isTurnComplete m = true ->
  let st1 := handleTranscription (GenAI.serverContent m) st in
  let uText := currentInputTrans st1 in
  let gText := currentOutputTrans st1 in
  let entries := turnEntries (dateNow env) uText gText in
  let st' := onmessage env m st in
  currentInputTrans st' = ""%string
  /\ currentOutputTrans st' = ""%string
  /\ history st' = history st ++ entries
  /\ (forall r t, In (r, t) (map roleText entries) <->
        t <> ""%string /\ (r = user /\ t = uText \/ r = gemini /\ t = gText))
  /\ turnEntries (dateNow env) "" "" = []
  /\ history (onmessage env turnCompleteMessage
                (setCurrentInputTrans "" (setCurrentOutputTrans "" st)))
     = history st.
Proof.
  destruct m as [[sc|]]; intros Htc; unfold isTurnComplete in Htc;
    cbn in Htc; [|discriminate].
  intros st1 uText gText entries st'.
  destruct (onmessage_transcript env {| GenAI.serverContent := Some sc |} st)
    as (Hh & Hi & Ho).
  cbn [GenAI.serverContent] in Hh, Hi, Ho.
  destruct (handleTurnComplete_yes env sc st1 Htc) as (Ri & Ro & Rh).
  assert (Hst1 : history st1 = history st).
  { unfold st1, handleTranscription. cbn.
    destruct (GenAI.outputTranscription sc); [reflexivity|].
    destruct (GenAI.inputTranscription sc); reflexivity. }
  fold st' in Hh, Hi, Ho.
  change (handleTranscription (Some sc) st) with st1 in Hh, Hi, Ho.
  rewrite Hi, Ho, Hh, Ri, Ro, Rh, Hst1.
  split; [reflexivity|]. split; [reflexivity|]. split; [reflexivity|].
  split; [|split; [reflexivity|]].
  - intros r t. unfold entries. rewrite turnEntries_finalized.
    apply finalized_spec.
  - destruct st; reflexivity.
Qed.

(** C10 (both deltas in one message).  When a message carries an output and an
    input transcription, only the output text is appended to its accumulator
    and the input accumulator is left as it was; the message is handled
    exactly as the same message without its input transcription. *)
Theorem both_deltas_input_dropped (env : Env) (m : GenAI.LiveServerMessage)
    (st : AppState) (sc : GenAI.LiveServerContent)
    (o i : GenAI.Transcription) :
  GenAI.serverContent m = Some sc ->
  GenAI.outputTranscription sc = Some o ->
  GenAI.inputTranscription sc = Some i ->
  let st1 := handleTranscription (Some sc) st in
  currentOutputTrans st1
  = (currentOutputTrans st ++ Js.toString (GenAI.text o))%string
  /\ currentInputTrans st1 = currentInputTrans st
  /\ currentOutputTrans (onmessage env m st)
     = (if GenAI.turnComplete sc then ""
        else currentOutputTrans st ++ Js.toString (GenAI.text o))%string
  /\ currentInputTrans (onmessage env m st)
     = (if GenAI.turnComplete sc then "" else currentInputTrans st)%string
  /\ onmessage env m st = onmessage env (withoutInputTranscription m) st.
Proof.
  destruct m as [sc']. intros Hsc Ho Hi st1. cbn in Hsc. subst sc'.
  assert (E1 : st1 = setCurrentOutputTrans
                       (currentOutputTrans st ++ Js.toString (GenAI.text o))
                       st).
  { unfold st1, handleTranscription. cbn. now rewrite Ho. }
  destruct (onmessage_transcript env {| GenAI.serverContent := Some sc |} st)
    as (_ & Ti & To).
  cbn [GenAI.serverContent] in Ti, To. fold st1 in Ti, To.
  rewrite Ti, To, E1.
  split; [reflexivity|]. split; [reflexivity|].
  split; [|split].
  - unfold handleTurnComplete. cbn.
    destruct (GenAI.turnComplete sc); reflexivity.
  - unfold handleTurnComplete. cbn.
    destruct (GenAI.turnComplete sc); reflexivity.
  - unfold onmessage, withoutInputTranscription; open_onmessage.
    cbn [GenAI.serverContent option_map].
    assert (E2 : handleTranscription
                   (Some {| GenAI.outputTranscription :=
                              GenAI.outputTranscription sc;
                            GenAI.inputTranscription := None;
                            GenAI.turnComplete := GenAI.turnComplete sc;
                            GenAI.modelTurn := GenAI.modelTurn sc;
                            GenAI.interrupted := GenAI.interrupted sc |}) st
                 = st1).
    { rewrite E1. unfold handleTranscription. cbn. now rewrite Ho. }
    rewrite E2. fold st1. reflexivity.
Qed.

End MessageProperties.

(** * The capture callback *)

Lemma wrap16_range (int : Z) : -32768 <= Js.wrap16 int <= 32767.
Proof.
  unfold Js.wrap16.
  pose proof (Z.mod_pos_bound int 65536 eq_refl).
  destruct (Z.leb_spec 32768 (int mod 65536)); lia.
Qed.

Lemma wrap16_congruent (int : Z) : (Js.wrap16 int - int) mod 65536 = 0.
Proof.
  unfold Js.wrap16.
  pose proof (Z.div_mod int 65536 ltac:(lia)) as E.
  destruct (Z.leb_spec 32768 (int mod 65536)).
  - replace (int mod 65536 - 65536 - int)
      with ((- (int / 65536) - 1) * 65536) by lia.
    apply Z.mod_mul. lia.
  - replace (int mod 65536 - int) with ((- (int / 65536)) * 65536) by lia.
    apply Z.mod_mul. lia.
Qed.

Lemma wrap16_fixed (int : Z) :
  Js.wrap16 int = int <-> -32768 <= int <= 32767.
Proof.
  split.
  - intros <-. apply wrap16_range.
  - intros H. unfold Js.wrap16.
    pose proof (Z.div_mod int 65536 ltac:(lia)) as E.
    pose proof (Z.mod_pos_bound int 65536 eq_refl) as B.
    destruct (Z.leb_spec 32768 (int mod 65536)); lia.
Qed.

(** ** Scaling a sample by 32768 is exact

    The product [sample * 32768] is a binary64 multiplication.  For a sample
    between -1 and 1 it involves no rounding: the significand is kept and the
    exponent moves by 15. *)

Lemma digits2_size (p : positive) : digits2_pos p = Pos.size p.
Proof. induction p; cbn; congruence. Qed.

Lemma Zdigits2_log2 (p : positive) : Zdigits2 (Zpos p) = Z.log2 (Zpos p) + 1.
Proof.
  cbn [Zdigits2]. rewrite digits2_size.
  pose proof (Pos.size_gt p) as Hgt. pose proof (Pos.size_le p) as Hle.
  assert (Hlt : Zpos p < 2 ^ Zpos (Pos.size p)).
  { rewrite <- Pos2Z.inj_pow. apply Pos2Z.pos_lt_pos. exact Hgt. }
  assert (Hge : 2 ^ Zpos (Pos.size p) <= 2 * Zpos p).
  { rewrite <- Pos2Z.inj_pow. change (2 * Zpos p) with (Zpos (p~0)).
    apply Pos2Z.pos_le_pos. exact Hle. }
  assert (Hs : 0 < Zpos (Pos.size p)) by lia.
  symmetry. 
  assert (Z.log2 (Zpos p) = Zpos (Pos.size p) - 1); [|lia].
  apply Z.log2_unique; [lia|].
  replace (Z.succ (Zpos (Pos.size p) - 1)) with (Zpos (Pos.size p)) by lia.
  split; [|exact Hlt].
  assert (2 ^ Zpos (Pos.size p) = 2 * 2 ^ (Zpos (Pos.size p) - 1)).
  { rewrite <- Z.pow_succ_r by lia. f_equal. lia. }
  lia.
Qed.

Lemma shr_1_even (M : Z) :
  0 < M -> Z.even M = true ->
  shr_1 (Build_shr_record M false false) = Build_shr_record (M / 2) false false.
Proof.
  intros Hpos Hev. destruct M as [|[p|p|]|]; try lia; try discriminate.
  cbn [shr_1 orb]. f_equal. change (Zpos p~0) with (2 * Zpos p).
  rewrite Z.mul_comm, Z.div_mul; lia.
Qed.

Lemma iter_pos_nat {A} (f : A -> A) (n : positive) :
  forall x, iter_pos f n x = Nat.iter (Pos.to_nat n) f x.
Proof.
  induction n as [n IH|n IH|]; intros x; cbn [iter_pos].
  - rewrite !IH, Pos2Nat.inj_xI.
    replace (S (2 * Pos.to_nat n))%nat with (Pos.to_nat n + (Pos.to_nat n + 1))%nat by lia.
    rewrite !Nat.iter_add. cbn. reflexivity.
  - rewrite !IH, Pos2Nat.inj_xO.
    replace (2 * Pos.to_nat n)%nat with (Pos.to_nat n + Pos.to_nat n)%nat by lia.
    rewrite Nat.iter_add. reflexivity.
  - reflexivity.
Qed.

Lemma iter_shr_1_exact (k : nat) :
  forall q, 0 < q ->
  Nat.iter k shr_1 (Build_shr_record (q * 2 ^ Z.of_nat k) false false)
  = Build_shr_record q false false.
Proof.
  induction k as [|k IH]; intros q Hq.
  - cbn. now rewrite Z.mul_1_r.
  - rewrite Nat.iter_succ_r.
    rewrite shr_1_even.
    + rewrite Nat2Z.inj_succ, Z.pow_succ_r by lia.
      replace (q * (2 * 2 ^ Z.of_nat k) / 2) with (q * 2 ^ Z.of_nat k).
      * apply IH, Hq.
      * replace (q * (2 * 2 ^ Z.of_nat k)) with (q * 2 ^ Z.of_nat k * 2) by lia.
        now rewrite Z.div_mul by lia.
    + assert (0 < 2 ^ Z.of_nat (S k)) by (apply Z.pow_pos_nonneg; lia). nia.
    + rewrite Nat2Z.inj_succ, Z.pow_succ_r by lia.
      replace (q * (2 * 2 ^ Z.of_nat k)) with (2 * (q * 2 ^ Z.of_nat k)) by lia.
      apply Z.even_even.
Qed.

Lemma shr_exact (q : Z) (e n : Z) :
  0 < q -> 0 <= n ->
  shr (Build_shr_record (q * 2 ^ n) false false) e n
  = (Build_shr_record q false false, e + n).
Proof.
  intros Hq Hn. unfold shr.
  destruct n as [|p|p]; [|clear Hn|lia].
  - rewrite Z.mul_1_r, Z.add_0_r. reflexivity.
  - rewrite iter_pos_nat. f_equal.
    rewrite <- (positive_nat_Z p). apply iter_shr_1_exact, Hq.
Qed.

Lemma SFmul_scale (s : bool) (m : positive) (e : Z) :
  bounded prec emax m e = true -> e <= 956 ->
  exists m' k,
    0 <= k <= 15 /\ Zpos m' = Zpos m * 2 ^ k
    /\ SF64mul (S754_finite s m e) (S754_finite false 4503599627370496 (-37))
       = S754_finite s m' (e + 15 - k).
Proof.
  intros Hb He.
  unfold bounded, canonical_mantissa in Hb.
  apply andb_true_iff in Hb as [Hc Hle].
  apply Z.eqb_eq in Hc. apply Z.leb_le in Hle.
  change (Zpos (digits2_pos m)) with (Zdigits2 (Zpos m)) in Hc.
  rewrite Zdigits2_log2 in Hc.
  pose proof (Z.log2_nonneg (Zpos m)) as Hlog.
  set (d := Z.log2 (Zpos m) + 1) in *.
  unfold fexp, emin, prec, emax in Hc, Hle.
  (* the shift applied to the double-width product *)
  set (n := Z.max (d + 52 + (e + -37) - 53) (3 - 1024 - 53) - (e + -37)).
  assert (Hn : 37 <= n <= 52) by lia.
  set (k := 52 - n).
  assert (Hq : 0 < Zpos m * 2 ^ k)
    by (apply Z.mul_pos_pos; [lia | apply Z.pow_pos_nonneg; lia]).
  destruct (Zpos m * 2 ^ k) as [|m'|] eqn:Hm'; try lia.
  exists m', k. split; [lia|]. split; [symmetry; exact Hm'|].
  unfold SF64mul, SFmul. rewrite xorb_false_r.
  assert (HM : Zpos (m * 4503599627370496) = Zpos m' * 2 ^ n).
  { rewrite Pos2Z.inj_mul, <- Hm', <- Z.mul_assoc, <- Z.pow_add_r by lia.
    f_equal. unfold k. replace (52 - n + n) with 52 by lia. reflexivity. }
  assert (Hdig : Zdigits2 (Zpos (m * 4503599627370496)) = d + 52).
  { rewrite Zdigits2_log2, Pos2Z.inj_mul.
    change (Zpos 4503599627370496) with (2 ^ 52).
    rewrite Z.log2_mul_pow2 by lia. lia. }
  assert (Hdig' : Zdigits2 (Zpos m') = d + k).
  { rewrite Zdigits2_log2, <- Hm', Z.log2_mul_pow2 by lia. lia. }
  unfold binary_round_aux.
  assert (S1 : shr_fexp prec emax (Zpos (m * 4503599627370496)) (e + -37)
                 loc_Exact
               = (Build_shr_record (Zpos m') false false, e + -37 + n)).
  { unfold shr_fexp. rewrite Hdig.
    unfold fexp, emin, prec, emax. fold n.
    cbn [shr_record_of_loc]. rewrite HM. apply shr_exact; lia. }
  rewrite S1. cbn [shr_m loc_of_shr_record round_nearest_even].
  assert (S2 : shr_fexp prec emax (Zpos m') (e + -37 + n) loc_Exact
               = (Build_shr_record (Zpos m') false false, e + -37 + n)).
  { unfold shr_fexp. rewrite Hdig'.
    unfold fexp, emin, prec, emax. cbn [shr_record_of_loc].
    replace (Z.max (d + k + (e + -37 + n) - 53) (3 - 1024 - 53)
             - (e + -37 + n)) with 0 by lia.
    reflexivity. }
  rewrite S2. cbn [shr_m].
  unfold prec, emax.
  destruct (Z.leb_spec (e + -37 + n) (1024 - 53)); [|lia].
  f_equal. lia.
Qed.

Lemma Prim2SF_32768 :
  Prim2SF 32768 = S754_finite false 4503599627370496 (-37).
Proof. vm_compute. reflexivity. Qed.

(** What the comparisons with -1 and 1 say about the decomposition. *)
Lemma in_range_finite (x : float) :
  (-1 <=? x)%float = true -> (x <? 1)%float = true ->
  match Prim2SF x with
  | S754_zero _ => True
  | S754_finite s m e =>
      bounded prec emax m e = true
      /\ (e <= -53
          \/ e = -52 /\ if s then Zpos m <= 2 ^ 52 else Zpos m < 2 ^ 52)
  | _ => False
  end.
Proof.
  rewrite leb_spec, ltb_spec.
  pose proof (Prim2SF_valid x) as Hv.
  replace (Prim2SF (-1)) with (S754_finite true 4503599627370496 (-52))
    by (vm_compute; reflexivity).
  replace (Prim2SF 1) with (S754_finite false 4503599627370496 (-52))
    by (vm_compute; reflexivity).
  destruct (Prim2SF x) as [sx|sx| |s m e]; unfold SFleb, SFltb; cbn [SFcompare].
  - trivial.
  - destruct sx; discriminate.
  - discriminate.
  - cbn [valid_binary] in Hv. intros Hlo Hhi. split; [exact Hv|].
    destruct s.
    + destruct (Z.compare_spec (-52) e) as [<-|Hlt|Hgt]; cbv beta iota in Hlo.
      * right. split; [reflexivity|].
        change (2 ^ 52) with (Zpos 4503599627370496).
        rewrite Pos.compare_cont_spec in Hlo. cbn [Pos.switch_Eq] in Hlo.
        clear Hv Hhi.
        destruct (Pos.compare_spec 4503599627370496 m) as [Heq|Hm|Hm].
        -- rewrite <- Heq. apply Z.le_refl.
        -- cbn [CompOpp] in Hlo. cbv beta iota in Hlo. discriminate Hlo.
        -- apply Pos2Z.pos_le_pos, Pos.lt_le_incl, Hm.
      * discriminate Hlo.
      * left. lia.
    + destruct (Z.compare_spec e (-52)) as [->|Hlt|Hgt]; cbv beta iota in Hhi.
      * right. split; [reflexivity|].
        change (2 ^ 52) with (Zpos 4503599627370496).
        rewrite Pos.compare_cont_spec in Hhi. cbn [Pos.switch_Eq] in Hhi.
        clear Hv Hlo.
        destruct (Pos.compare_spec m 4503599627370496) as [Heq|Hm|Hm].
        -- discriminate Hhi.
        -- apply Pos2Z.pos_lt_pos, Hm.
        -- discriminate Hhi.
      * left. lia.
      * discriminate Hhi.
Qed.

Lemma bounded_lt (m : positive) (e : Z) :
  bounded prec emax m e = true -> Zpos m < 2 ^ 53 /\ -1074 <= e.
Proof.
  unfold bounded, canonical_mantissa. intros [Hc _]%andb_true_iff.
  apply Z.eqb_eq in Hc.
  change (Zpos (digits2_pos m)) with (Zdigits2 (Zpos m)) in Hc.
  rewrite Zdigits2_log2 in Hc.
  unfold fexp, emin, prec, emax in Hc.
  split; [|lia].
  apply Z.log2_lt_pow2; lia.
Qed.

(** For a sample in [-1, 1) the truncated product is the truncation of the
    exact product, and it is a 16-bit signed integer. *)
Lemma scaled_exact (x : float) :
  (-1 <=? x)%float = true -> (x <? 1)%float = true ->
  exists int,
    Js.truncate (x * 32768) = Some int
    /\ Js.truncateScaled x 15 = Some int
    /\ -32768 <= int <= 32767.
Proof.
  intros Hlo Hhi. pose proof (in_range_finite x Hlo Hhi) as H.
  unfold Js.truncate, Js.truncateScaled. rewrite mul_spec, Prim2SF_32768.
  destruct (Prim2SF x) as [sx|sx| |s m e]; try contradiction.
  - exists 0. cbn. repeat split; lia.
  - destruct H as (Hb & He).
    destruct (bounded_lt m e Hb) as (Hm & Hemin).
    destruct (SFmul_scale s m e Hb ltac:(lia)) as (m' & k & Hk & Hm' & ->).
    destruct (Z.leb_spec 0 (e + 15 - k)); [lia|].
    destruct (Z.leb_spec 0 (e + 15)); [lia|].
    assert (Hmag : Z.shiftr (Zpos m') (- (e + 15 - k))
                   = Z.shiftr (Zpos m) (- (e + 15))).
    { rewrite !Z.shiftr_div_pow2 by lia.
      rewrite Hm'.
      replace (- (e + 15 - k)) with (- (e + 15) + k) by lia.
      rewrite Z.pow_add_r by lia.
      apply Z.div_mul_cancel_r; apply Z.pow_nonzero; lia. }
    rewrite Hmag. eexists. split; [reflexivity|]. split; [reflexivity|].
    rewrite Z.shiftr_div_pow2 by lia.
    assert (Hpow : 2 ^ 37 <= 2 ^ (- (e + 15)))
      by (apply Z.pow_le_mono_r; lia).
    assert (Hnn : 0 <= Zpos m / 2 ^ (- (e + 15)))
      by (apply Z.div_pos; lia).
    assert (Hup : Zpos m / 2 ^ (- (e + 15))
                  <= if s then 32768
                     else 32767).
    { destruct He as [He|[-> He]].
      - assert (2 ^ 38 <= 2 ^ (- (e + 15)))
          by (apply Z.pow_le_mono_r; lia).
        assert (Zpos m / 2 ^ (- (e + 15)) < 32768).
        { apply Z.div_lt_upper_bound; [lia|].
          change (2 ^ 53) with (2 ^ 38 * 32768) in Hm.
          assert (2 ^ 38 * 32768 <= 2 ^ (- (e + 15)) * 32768) by lia. lia. }
        destruct s; lia.
      - change (- (-52 + 15)) with 37.
        destruct s.
        + apply Z.div_le_upper_bound; [lia|].
          change (2 ^ 52) with (2 ^ 37 * 32768) in He. lia.
        + assert (Zpos m / 2 ^ 37 < 32768); [|lia].
          apply Z.div_lt_upper_bound; [lia|].
          change (2 ^ 52) with (2 ^ 37 * 32768) in He. lia. }
    destruct s; lia.
Qed.


(** C6 (PCM conversion, amended).  The conversion of a sample is total and
    always yields a 16-bit signed integer: the product of the sample by 32768,
    truncated toward zero and reduced modulo 2^16 into [-32768, 32767], or 0
    when the product is not finite.  Nothing is clamped: the result is the
    truncated product exactly when that lies in [-32768, 32767].  For every
    sample in [-1, 1) it is the sample times 32768, computed without
    rounding, truncated toward zero.  So -1.0 gives -32768 and 0.5 gives
    16384, while 1.0 gives -32768 and 1.5 gives -16384. *)
Theorem pcm16_wraps (sample : float) :
  -32768 <= pcm16 sample <= 32767
  /\ match Js.truncate (sample * 32768)%float with
     | Some int =>
         (pcm16 sample - int) mod 65536 = 0
         /\ (pcm16 sample = int <-> -32768 <= int <= 32767)
     | None => pcm16 sample = 0
     end
  /\ ((-1 <=? sample)%float = true -> (sample <? 1)%float = true ->
      exists int,
        Js.truncateScaled sample 15 = Some int
        /\ -32768 <= int <= 32767
        /\ pcm16 sample = int)
  /\ pcm16 (-1)%float = -32768
  /\ pcm16 0.5%float = 16384
  /\ pcm16 1%float = -32768
  /\ pcm16 1.5%float = -16384
  /\ pcm16 nan = 0
  /\ pcm16 infinity = 0.
Proof.
  split; [|split].
  - unfold pcm16, Js.ToInt16.
    destruct (Js.truncate (sample * 32768)%float) as [int|];
      [apply wrap16_range | lia].
  - unfold pcm16, Js.ToInt16.
    destruct (Js.truncate (sample * 32768)%float) as [int|];
      [|reflexivity].
    split; [apply wrap16_congruent | apply wrap16_fixed].
  - split; [|repeat split; vm_compute; reflexivity].
    intros Hlo Hhi.
    destruct (scaled_exact sample Hlo Hhi) as (int & Ht & Hs & Hr).
    exists int. split; [exact Hs|]. split; [exact Hr|].
    unfold pcm16, Js.ToInt16. rewrite Ht. apply wrap16_fixed, Hr.
Qed.


(** * Closed instances *)

(** The spec's example: user "Hel", user "lo", model "Hi", turn-complete. *)
Example transcript_hello :
  map roleText
    (history
       (Sample.onmessage (Sample.at_ 0) turnCompleteMessage
          (Sample.deliver initialState
             (map (fun d => (Sample.at_ 0, deltaMessage d))
                  [(user, "Hel"); (user, "lo"); (gemini, "Hi")]%string))))
  = [(user, "Hello"); (gemini, "Hi")]%string.
Proof. reflexivity. Qed.




(** A turn in which only the user spoke. *)
Lemma empty_turn_and_reset_witness :
  let st := setCurrentInputTrans "Hello" initialState in
  let st' := Sample.onmessage (Sample.at_ 0) turnCompleteMessage st in
  isTurnComplete turnCompleteMessage = true
  /\ currentInputTrans st' = ""%string
  /\ currentOutputTrans st' = ""%string
  /\ map roleText (history st') = [(user, "Hello"%string)].
Proof.
  intros st st'.
  destruct (empty_turn_and_reset Sample.decode Sample.decodeAudioData
              (Sample.at_ 0) turnCompleteMessage st eq_refl)
    as (H1 & H2 & H3 & _).
  split; [reflexivity|]. split; [exact H1|]. split; [exact H2|].
  unfold st'. unfold Sample.onmessage. rewrite H3. reflexivity.
Defined.

(** One message with the model's "Hi" and the user's "lo". *)
Lemma both_deltas_input_dropped_witness :
  let sc := {| GenAI.outputTranscription := Some (transcription "Hi");
               GenAI.inputTranscription := Some (transcription "lo");
               GenAI.turnComplete := false;
               GenAI.modelTurn := None;
               GenAI.interrupted := false |} in
  let st := setCurrentInputTrans "Hel" initialState in
  let st' := Sample.onmessage (Sample.at_ 0)
               {| GenAI.serverContent := Some sc |} st in
  currentOutputTrans st' = "Hi"%string
  /\ currentInputTrans st' = "Hel"%string.
Proof.
  intros sc st st'.
  destruct (both_deltas_input_dropped Sample.decode Sample.decodeAudioData
              (Sample.at_ 0) {| GenAI.serverContent := Some sc |} st sc
              (transcription "Hi") (transcription "lo")
              eq_refl eq_refl eq_refl)
    as (_ & _ & H3 & H4 & _).
  split; [exact H3 | exact H4].
Defined.

(** Half of full scale. *)
Lemma pcm16_wraps_witness :
  (-1 <=? 0.5)%float = true
  /\ (0.5 <? 1)%float = true
  /\ Js.truncateScaled 0.5 15 = Some 16384
  /\ pcm16 0.5%float = 16384.
Proof.
  split; [reflexivity|]. split; [reflexivity|].
  destruct (pcm16_wraps 0.5%float) as (_ & _ & H & _).
  destruct (H eq_refl eq_refl) as (int & Hs & _ & Hp).
  assert (Hint : Some int = Some 16384)
    by (rewrite <- Hs; vm_compute; reflexivity).
  injection Hint as ->.
  split; [exact Hs | exact Hp].
Defined.

(** C6 as stated fails: 1.5 and 1.0 are not converted to the same value. *)
Lemma out_of_range_not_clamped :
  pcm16 1.5%float = -16384
  /\ pcm16 1%float = -32768
  /\ pcm16 1.5%float <> pcm16 1%float
  /\ floatToPCM16 [1.5%float] <> floatToPCM16 [1%float].
Proof.
  repeat split; try (vm_compute; reflexivity); vm_compute; discriminate.
Qed.

(** A connected session: microphone granted, socket open, session known. *)
Example connected_session :
  let st := Sample.run initialState
              [Start; GotStream {| getTracks := [0%nat] |}; Open; Resolved 1] in
  status st = CONNECTED
  /\ status (onerror st) = DISCONNECTED
  /\ callsSince st (onerror st) = [SessionClose 1; TrackStop 0]
  /\ status (Sample.run st [Stop]) = DISCONNECTED
  /\ Sample.run st [Stop; Stop] = Sample.run st [Stop].
Proof. repeat split. Qed.

(** What [stopConversation] leaves behind reaches the next session: the
    user's unfinished "Hel" is prepended to the first turn of the new
    session, whose first chunk, arriving at clock 0 of a new output context,
    is scheduled at the old [nextStartTime]. *)
Example stale_state_reaches_next_session :
  let ms := {| getTracks := [0%nat] |} in
  let first := Sample.run initialState
                 [Start; GotStream ms; Open; Resolved 1;
                  Message (Sample.at_ 0) (deltaMessage (user, "Hel"%string));
                  Message (Sample.at_ 0) (chunkMessage "AAAA")] in
  let stopped := stopConversation first in
  let second := Sample.run stopped
                  [Start; GotStream ms; Open; Resolved 2;
                   Message (Sample.at_ 0) (deltaMessage (user, "lo"%string));
                   Message (Sample.at_ 0) turnCompleteMessage;
                   Message (Sample.at_ 0) (chunkMessage "AAAA")] in
  nextStartTime stopped = 2
  /\ currentInputTrans stopped = "Hel"%string
  /\ history stopped = []
  /\ map roleText (history second) = [(user, "Hello"%string)]
  /\ scheduled (callsSince stopped second) = [(2, 2)].
Proof. repeat split. Qed.

(** Frames at the threshold: silence, an empty frame, and constant frames
    below, at and above 0.01. *)
#[warnings="-inexact-float"]
Example speech_activity_samples :
  speechActivity [0; 0; 0; 0]%float = false
  /\ speechActivity [] = false
  /\ speechActivity [0.005; -0.005]%float = false
  /\ speechActivity [0.01; 0.01]%float = false
  /\ speechActivity [0.02; -0.02]%float = true
  /\ speechActivity [0.5; 0; 0; 0]%float = true.
Proof. repeat split; vm_compute; reflexivity. Qed.

(** * Whole runs of the voice session *)

Section SessionRuns.

Variable encode : list Z -> string.
Variable decode : string -> list Z.
Variable decodeAudioData : list Z -> AudioBuffer.

Local Abbreviation appStep := (step encode decode decodeAudioData).
Local Abbreviation appRun := (run encode decode decodeAudioData).
Local Abbreviation appMessage := (onmessage decode decodeAudioData).

Lemma run_invariant (P : AppState -> Prop) :
  (forall st ev, P st -> P (appStep st ev)) ->
  forall evs st, P st -> P (appRun st evs).
Proof.
  intros Hstep. induction evs as [|ev evs IH]; intros st H; cbn.
  - exact H.
  - apply IH, Hstep, H.
Qed.

Lemma run_app (st : AppState) (evs evs' : list Event) :
  appRun st (evs ++ evs') = appRun (appRun st evs) evs'.
Proof. unfold run. apply fold_left_app. Qed.

(** The two transcript blocks of [onmessage] leave the playback alone. *)
Lemma transcript_blocks_keep_playback env sc st :
  let st' := handleTurnComplete env sc (handleTranscription sc st) in
  isGeminiSpeaking st' = isGeminiSpeaking st /\ samePlayback st' st.
Proof.
  unfold handleTurnComplete, handleTranscription, samePlayback.
  destruct sc as [sc|]; cbn; [|repeat split].
  destruct (GenAI.outputTranscription sc), (GenAI.inputTranscription sc),
    (GenAI.turnComplete sc); cbn;
    repeat match goal with
      | |- context [if ?b then _ else _] => destruct b
      end; repeat split.
Qed.

(** What the two playback blocks make of the playback fields. *)
Lemma playback_blocks env sc st :
  let st' := handleInterrupted sc (handleAudio decode decodeAudioData env sc st) in
  (isInterrupted {| GenAI.serverContent := sc |} = true /\
   activeSources st' = [] /\ isGeminiSpeaking st' = false /\
   nextStartTime st' = 0)
  \/ (isInterrupted {| GenAI.serverContent := sc |} = false /\
      audioOf {| GenAI.serverContent := sc |} = None /\ st' = st)
  \/ (isInterrupted {| GenAI.serverContent := sc |} = false /\
      exists s, audioOf {| GenAI.serverContent := sc |} = Some s /\
      activeSources st' = activeSources st ++ [sourcesCreated st] /\
      isGeminiSpeaking st' = true /\
      nextStartTime st'
      = Z.max (nextStartTime st) (currentTime env)
        + duration (decodeAudioData (decode s))).
Proof.
  intros st'.
  destruct (isInterrupted {| GenAI.serverContent := sc |}) eqn:Hi.
  - left. split; [reflexivity|].
    unfold isInterrupted in Hi. cbn in Hi.
    destruct sc as [c|]; [|discriminate].
    unfold st', handleInterrupted. cbn. rewrite Hi. repeat split.
  - right. unfold st'. rewrite (handleInterrupted_not _ _ Hi).
    destruct (audioOf {| GenAI.serverContent := sc |}) as [s|] eqn:Ha.
    + right. split; [reflexivity|]. exists s. split; [reflexivity|].
      destruct (handleAudio_chunk decode decodeAudioData env sc st s Ha)
        as (H1 & _ & H3 & _ & H5).
      repeat split; assumption.
    + left. split; [reflexivity|]. split; [reflexivity|].
      apply handleAudio_none, Ha.
Qed.

Lemma step_speaking st ev :
  speakingMatchesSources st -> speakingMatchesSources (appStep st ev).
Proof.
  unfold speakingMatchesSources. intros H.
  destruct ev as [| | | | |env [sc]|source| | | |];
    try (destruct st; exact H).
  - (* Message *)
    cbn [step]. unfold onmessage. cbn [GenAI.serverContent].
    destruct (transcript_blocks_keep_playback env sc st) as (Hs & _ & Ha & _).
    set (st2 := handleTurnComplete env sc (handleTranscription sc st)) in *.
    destruct (playback_blocks env sc st2)
      as [(_ & -> & -> & _)|[(_ & _ & ->)|(_ & s & _ & -> & -> & _)]].
    + reflexivity.
    + now rewrite Hs, Ha.
    + destruct (activeSources st2); reflexivity.
  - (* Ended *)
    cbn [step]. unfold onended. cbn.
    destruct (filter (fun s => negb (Nat.eqb s source)) (activeSources st))
      as [|a l] eqn:Hf; cbn; [reflexivity|].
    rewrite H. destruct (activeSources st); [discriminate Hf|reflexivity].
  - (* Error *)
    cbn [step]. unfold onerror.
    destruct (stopConversation_tornDown (setStatus ERROR st))
      as (_ & _ & _ & -> & _ & ->). reflexivity.
  - (* Stop *)
    cbn [step].
    destruct (stopConversation_tornDown st) as (_ & _ & _ & -> & _ & ->).
    reflexivity.
Qed.

(** X1.  Whatever happens to the session from its initial state, the "model
    is speaking" indicator is on exactly when some source is still in the
    set of active sources. *)
Theorem speaking_iff_sources_active (evs : list Event) :
  let st := appRun initialState evs in
  isGeminiSpeaking st = true <-> activeSources st <> [].
Proof.
  intros st.
  assert (H : speakingMatchesSources st).
  { apply run_invariant; [apply step_speaking | reflexivity]. }
  unfold speakingMatchesSources in H. rewrite H.
  destruct (activeSources st); split; congruence.
Qed.

Lemma stopConversation_keeps (st : AppState) :
  nextStartTime (stopConversation st) = nextStartTime st
  /\ history (stopConversation st) = history st
  /\ sourcesCreated (stopConversation st) = sourcesCreated st.
Proof.
  destruct st as [s h g u n a [se|] [sm|] ci co c t]; repeat split.
Qed.

Lemma step_nextStartTime st ev :
  interrupts ev = false ->
  nextStartTime st <= nextStartTime (appStep st ev).
Proof.
  intros Hi.
  destruct ev as [| | | | |env [sc]|source| | | |];
    try (destruct st; cbn; lia).
  - cbn [step]. unfold onmessage. cbn [GenAI.serverContent].
    destruct (transcript_blocks_keep_playback env sc st) as (_ & Hn & _).
    set (st2 := handleTurnComplete env sc (handleTranscription sc st)) in *.
    cbn [interrupts] in Hi.
    destruct (playback_blocks env sc st2)
      as [(Hi' & _)|[(_ & _ & ->)|(_ & s & _ & _ & _ & ->)]].
    + congruence.
    + lia.
    + pose proof (N2Z.is_nonneg (frames (decodeAudioData (decode s)))).
      unfold duration. lia.
  - cbn [step]. unfold onended.
    destruct (filter _ (activeSources st)); cbn; lia.
  - cbn [step]. unfold onerror.
    destruct (stopConversation_keeps (setStatus ERROR st)) as (-> & _).
    cbn. lia.
  - cbn [step]. destruct (stopConversation_keeps st) as (-> & _). lia.
Qed.

Lemma step_nextStartTime_nonneg st ev :
  0 <= nextStartTime st -> 0 <= nextStartTime (appStep st ev).
Proof.
  intros H0.
  destruct (interrupts ev) eqn:Hi.
  - destruct ev as [| | | | |env [sc]|source| | | |]; try discriminate Hi.
    cbn [step interrupts] in *. unfold onmessage. cbn [GenAI.serverContent].
    destruct (playback_blocks env sc
                (handleTurnComplete env sc (handleTranscription sc st)))
      as [(_ & _ & _ & ->)|[(Hi' & _)|(Hi' & _)]]; [lia|congruence|congruence].
  - pose proof (step_nextStartTime st ev Hi). lia.
Qed.

(** X2.  Only an interruption moves [nextStartTime] back: over any sequence
    of events without a message flagged [interrupted] it never decreases;
    and in every run from the initial state it is never negative. *)
Theorem nextStartTime_never_decreases (st : AppState) (evs : list Event) :
  Forall (fun ev => interrupts ev = false) evs ->
  nextStartTime st <= nextStartTime (appRun st evs)
  /\ forall evs', 0 <= nextStartTime (appRun initialState evs').
Proof.
  intros H. split.
  - revert st. induction H as [|ev evs Hev _ IH]; intros st.
    + cbn. lia.
    + change (appRun st (ev :: evs)) with (appRun (appStep st ev) evs).
      pose proof (step_nextStartTime st ev Hev).
      specialize (IH (appStep st ev)). lia.
  - intros evs'. apply (run_invariant (fun s => 0 <= nextStartTime s)).
    + apply step_nextStartTime_nonneg.
    + cbn. lia.
Qed.


End SessionRuns.

Section SessionTraces.

Variable encode : list Z -> string.
Variable decode : string -> list Z.
Variable decodeAudioData : list Z -> AudioBuffer.

Local Abbreviation appStep := (step encode decode decodeAudioData).
Local Abbreviation appRun := (run encode decode decodeAudioData).
Local Abbreviation appMessage := (onmessage decode decodeAudioData).

(** ** The transcript log *)

Lemma turnEntries_nonempty now uText gText :
  Forall (fun e => text e <> ""%string) (turnEntries now uText gText).
Proof.
  unfold turnEntries.
  destruct uText, gText; cbn; repeat constructor; discriminate.
Qed.

Lemma step_history st ev :
  exists new,
    history (appStep st ev) = history st ++ new
    /\ Forall (fun e => text e <> ""%string) new.
Proof.
  destruct ev as [| | | | |env m|source| | | |];
    try (exists []; split; [destruct st; cbn; now rewrite app_nil_r
                           | constructor]).
  - cbn [step].
    destruct (onmessage_transcript decode decodeAudioData env m st)
      as (-> & _).
    assert (Ht : history (handleTranscription (GenAI.serverContent m) st)
                 = history st).
    { unfold handleTranscription.
      destruct (GenAI.serverContent m) as [sc|]; cbn; [|reflexivity].
      destruct (GenAI.outputTranscription sc); [reflexivity|].
      destruct (GenAI.inputTranscription sc); reflexivity. }
    destruct (GenAI.serverContent m) as [sc|].
    + destruct (GenAI.turnComplete sc) eqn:Htc.
      * destruct (handleTurnComplete_yes env sc
                    (handleTranscription (Some sc) st) Htc) as (_ & _ & ->).
        rewrite Ht. eexists. split; [reflexivity|].
        apply turnEntries_nonempty.
      * exists []. unfold handleTurnComplete. cbn [option_map].
        rewrite Htc, Ht.
        split; [now rewrite app_nil_r | constructor].
    + exists []. cbn. split; [now rewrite app_nil_r | constructor].
  - exists []. cbn [step]. unfold onended.
    destruct (filter _ (activeSources st)); cbn;
      (split; [now rewrite app_nil_r | constructor]).
  - exists []. cbn [step]. unfold onerror.
    destruct (stopConversation_keeps (setStatus ERROR st)) as (_ & -> & _).
    cbn. split; [now rewrite app_nil_r | constructor].
  - exists []. cbn [step].
    destruct (stopConversation_keeps st) as (_ & -> & _).
    split; [now rewrite app_nil_r | constructor].
Qed.

(** X4.  The transcript log is append-only: over any sequence of events the
    entries already logged stay, in place and unchanged, and every entry
    that is added has a non-empty text. *)
Theorem transcript_log_append_only (st : AppState) (evs : list Event) :
  exists new,
    history (appRun st evs) = history st ++ new
    /\ Forall (fun e => text e <> ""%string) new.
Proof.
  revert st. induction evs as [|ev evs IH]; intros st.
  - exists []. cbn. split; [now rewrite app_nil_r | constructor].
  - change (appRun st (ev :: evs)) with (appRun (appStep st ev) evs).
    destruct (IH (appStep st ev)) as (new2 & -> & H2).
    destruct (step_history st ev) as (new1 & -> & H1).
    exists (new1 ++ new2). split; [now rewrite app_assoc|].
    apply Forall_app. split; assumption.
Qed.

(** ** Sources that play to their end *)

Lemma ended_sources (ends : list nat) :
  forall st,
    let st' := appRun st (map Ended ends) in
    activeSources st'
    = filter (fun s => negb (existsb (Nat.eqb s) ends)) (activeSources st)
    /\ trace st' = trace st
    /\ nextStartTime st' = nextStartTime st.
Proof.
  induction ends as [|e ends IH]; intros st.
  - cbn. split; [|split; reflexivity].
    induction (activeSources st) as [|a l IHl]; cbn; congruence.
  - cbn zeta. cbn [map].
    change (appRun st (Ended e :: map Ended ends))
      with (appRun (onended e st) (map Ended ends)).
    destruct (IH (onended e st)) as (-> & -> & ->).
    assert (Ho : activeSources (onended e st)
                 = filter (fun s => negb (Nat.eqb s e)) (activeSources st)
                 /\ trace (onended e st) = trace st
                 /\ nextStartTime (onended e st) = nextStartTime st).
    { unfold onended. cbn.
      destruct (filter _ (activeSources st)); repeat split. }
    destruct Ho as (-> & -> & ->). split; [|split; reflexivity].
    induction (activeSources st) as [|a l IHl]; cbn; [reflexivity|].
    destruct (Nat.eqb a e); cbn; [exact IHl|].
    destruct (existsb (Nat.eqb a) ends); cbn; [exact IHl|].
    now rewrite IHl.
Qed.

(** X5.  When every active source has played to its end (the ['ended']
    events may come in any order, repeated, or for sources long gone), no
    source is active, the "model is speaking" indicator is off, nothing was
    stopped by force and [nextStartTime] is left where it was. *)
Theorem all_sources_ended (st : AppState) (ends : list nat) :
  activeSources st <> [] ->
  incl (activeSources st) ends ->
  let st' := appRun st (map Ended ends) in
  activeSources st' = []
  /\ isGeminiSpeaking st' = false
  /\ callsSince st st' = []
  /\ nextStartTime st' = nextStartTime st.
Proof.
  intros Hne Hincl st'.
  destruct (ended_sources ends st) as (Ha & Ht & Hn). fold st' in Ha, Ht, Hn.
  assert (Hempty : activeSources st' = []).
  { rewrite Ha.
    assert (H : forall l, incl l ends ->
                filter (fun s => negb (existsb (Nat.eqb s) ends)) l = []).
    { induction l as [|a l IHl]; intros Hl; [reflexivity|]. cbn.
      assert (Hin : existsb (Nat.eqb a) ends = true).
      { apply existsb_exists. exists a. split; [apply Hl; now left|].
        apply Nat.eqb_refl. }
      rewrite Hin. cbn. apply IHl. intros z Hz. apply Hl. now right. }
    apply H, Hincl. }
  split; [exact Hempty|]. split; [|split; [|exact Hn]].
  - destruct ends as [|e0 ends0] using rev_ind.
    + destruct (activeSources st) as [|a l]; [congruence|].
      exfalso. apply (Hincl a). now left.
    + unfold st' in *. rewrite map_app, run_app in *. cbn in *.
      set (prev := appRun st (map Ended ends0)) in *.
      unfold onended in *. cbn in *.
      destruct (filter _ (activeSources prev)); [reflexivity|discriminate].
  - apply callsSince_app. now rewrite Ht, app_nil_r.
Qed.

End SessionTraces.

(** ** The calls on source nodes *)








Section SourceCalls.

Variable encode : list Z -> string.
Variable decode : string -> list Z.
Variable decodeAudioData : list Z -> AudioBuffer.

Local Abbreviation appStep := (step encode decode decodeAudioData).
Local Abbreviation appRun := (run encode decode decodeAudioData).





End SourceCalls.

(** ** The outbound packet *)

Lemma pcm16_int16 (sample : float) : -32768 <= pcm16 sample <= 32767.
Proof.
  unfold pcm16, Js.ToInt16.
  destruct (Js.truncate _); [apply wrap16_range | lia].
Qed.

Lemma int16_bytes_read_back (v : Z) :
  -32768 <= v <= 32767 ->
  0 <= v mod 256 <= 255
  /\ 0 <= (v / 256) mod 256 <= 255
  /\ Js.wrap16 (v mod 256 + 256 * ((v / 256) mod 256)) = v.
Proof.
  intros Hv.
  pose proof (Z.mod_pos_bound v 256 eq_refl) as Hlo.
  pose proof (Z.mod_pos_bound (v / 256) 256 eq_refl) as Hhi.
  split; [lia|]. split; [lia|].
  pose proof (Z.div_mod v 256 ltac:(lia)) as Ev.
  assert (Hq : -128 <= v / 256 <= 127).
  { split.
    - apply Z.div_le_lower_bound; lia.
    - apply Z.lt_succ_r. apply Z.div_lt_upper_bound; lia. }
  unfold Js.wrap16.
  destruct (Z.neg_nonneg_cases (v / 256)) as [Hneg|Hpos].
  - assert (Eh : (v / 256) mod 256 = v / 256 + 256).
    { symmetry. apply (Z.mod_unique _ _ (-1)); lia. }
    rewrite Eh.
    replace (v mod 256 + 256 * (v / 256 + 256)) with (v + 65536) by lia.
    assert (Em : (v + 65536) mod 65536 = v + 65536).
    { apply Z.mod_small. lia. }
    rewrite Em. destruct (Z.leb_spec 32768 (v + 65536)); lia.
  - assert (Eh : (v / 256) mod 256 = v / 256) by (apply Z.mod_small; lia).
    rewrite Eh.
    replace (v mod 256 + 256 * (v / 256)) with v by lia.
    assert (Em : v mod 65536 = v) by (apply Z.mod_small; lia).
    rewrite Em. destruct (Z.leb_spec 32768 v); lia.
Qed.

(** X7.  The byte payload of an outbound packet holds two bytes per sample,
    each between 0 and 255, and loses nothing: read back as little-endian
    signed 16-bit integers the bytes are the converted samples. *)
Theorem packet_bytes_keep_samples (inputData : list float) :
  let int16 := floatToPCM16 inputData in
  let bytes := int16Bytes int16 in
  List.length bytes = (2 * List.length inputData)%nat
  /\ Forall (fun b => 0 <= b <= 255) bytes
  /\ int16OfBytes bytes = int16.
Proof.
  cbn zeta. unfold floatToPCM16.
  induction inputData as [|x rest (IH1 & IH2 & IH3)]; cbn [map].
  - repeat split. constructor.
  - destruct (int16_bytes_read_back (pcm16 x) (pcm16_int16 x))
      as (Hlo & Hhi & Hback).
    unfold int16Bytes in *. cbn [flat_map app List.length int16OfBytes].
    split; [rewrite IH1; cbn; lia|]. split.
    + constructor; [exact Hlo|]. constructor; [exact Hhi|exact IH2].
    + rewrite Hback. f_equal. exact IH3.
Qed.

(** * The image editor *)

Lemma slice0_prefix {A} (l : list A) (p : Z) :
  -1 <= p < Z.of_nat (List.length l) ->
  JsText.slice0 l (p + 1) = firstn (Z.to_nat (p + 1)) l.
Proof.
  intros Hp. unfold JsText.slice0.
  destruct (Z.ltb_spec (p + 1) 0); [lia|].
  now rewrite Z.min_l by lia.
Qed.

Lemma slice0_length {A} (l : list A) (k : Z) :
  (List.length (JsText.slice0 l k) <= List.length l)%nat.
Proof. unfold JsText.slice0. rewrite length_firstn. lia. Qed.

Lemma wellFormed_same (st st' : Editor.State) :
  Editor.history st' = Editor.history st ->
  Editor.pointer st' = Editor.pointer st ->
  Editor.wellFormed st -> Editor.wellFormed st'.
Proof. unfold Editor.wellFormed. intros -> ->. trivial. Qed.

Lemma pushImage_wellFormed (seen st : Editor.State) (image : string) :
  Editor.wellFormed (Editor.pushImage seen image st).
Proof.
  right. unfold Editor.pushImage. cbn.
  rewrite length_app. cbn. lia.
Qed.

Lemma step_wellFormed (st : Editor.State) (ev : Editor.Event) :
  Editor.wellFormed st -> Editor.wellFormed (Editor.step st ev).
Proof.
  intros H.
  destruct ev as [result|text| | | |e|e| |page|seen hasKey|seen outcome|err];
    cbn [Editor.step].
  - right. cbn. lia.
  - exact H.
  - unfold Editor.undo. destruct (Z.ltb_spec 0 (Editor.pointer st)); [|exact H].
    destruct H as [(_ & Hp)|Hp]; [lia|]. right. cbn. lia.
  - unfold Editor.redo.
    destruct (Z.ltb_spec (Editor.pointer st)
                (Z.of_nat (List.length (Editor.history st)) - 1)); [|exact H].
    destruct H as [(Hh & Hp)|Hp].
    + rewrite Hh in *. cbn in *. lia.
    + right. cbn. lia.
  - exact H.
  - unfold Editor.handleMouseDown.
    destruct (Editor.isCropping st), (Editor.container e) as [[? ?]|];
      exact H.
  - unfold Editor.handleMouseMove.
    destruct (Editor.isCropping st && Editor.isDragging st),
      (Editor.container e) as [[? ?]|]; try exact H.
    destruct (Editor.image e) as [[? ?]|]; exact H.
  - exact H.
  - unfold Editor.executeCrop.
    destruct (Editor.cropBox st); [|exact H].
    destruct (Editor.imagePresent page && Editor.hasImage st
              && Editor.context2d page); [|exact H].
    apply (wellFormed_same (Editor.pushImage st (Editor.toDataURL page) st));
      [reflexivity..|apply pushImage_wellFormed].
  - unfold Editor.requestEdit.
    destruct hasKey, (Editor.currentImage seen); exact H.
  - unfold Editor.settleEdit.
    destruct outcome as [response|err].
    + destruct (GenAIModels.imageOf response) as [blob|]; [|exact H].
      apply (wellFormed_same
               (Editor.pushImage seen (GenAIModels.pngDataUrl blob) st));
        [reflexivity..|apply pushImage_wellFormed].
    + unfold Editor.editFailed.
      destruct (GenAIModels.entityNotFound err); exact H.
  - unfold Editor.editFailed.
    destruct (GenAIModels.entityNotFound err); exact H.
Qed.

Lemma wellFormed_current (st : Editor.State) :
  Editor.wellFormed st ->
  (Editor.currentImage st = None <-> Editor.history st = []).
Proof.
  unfold Editor.wellFormed, Editor.currentImage.
  intros [(Hh & Hp)|Hp].
  - rewrite Hh, Hp. cbn. split; reflexivity.
  - destruct (Z.leb_spec 0 (Editor.pointer st)); [|lia].
    destruct (Z.ltb_spec (Editor.pointer st)
                (Z.of_nat (List.length (Editor.history st)))); [|lia].
    cbn [andb]. split.
    + intros Hn. apply nth_error_None in Hn. lia.
    + intros Hh. rewrite Hh in Hp. cbn in Hp. lia.
Qed.

(** X8.  Whatever the handlers of the editor are called with, in whatever
    order, the pointer designates an entry of the history, or the history is
    empty and the pointer is -1; so an image is shown exactly when one has
    been loaded. *)
Theorem editor_pointer_stays_in_history (evs : list Editor.Event) :
  let st := Editor.run Editor.initial evs in
  Editor.wellFormed st
  /\ (Editor.currentImage st = None <-> Editor.history st = []).
Proof.
  intros st.
  assert (H : Editor.wellFormed st).
  { unfold st, Editor.run.
    assert (G : forall evs s, Editor.wellFormed s ->
                  Editor.wellFormed (fold_left Editor.step evs s)).
    { intros l. induction l as [|ev l IH]; intros s Hs; cbn;
        [exact Hs | apply IH, step_wellFormed, Hs]. }
    apply G. left. split; reflexivity. }
  split; [exact H | apply wellFormed_current, H].
Qed.

(** * Strings *)

Lemma split_nonempty (sep : ascii) (s : string) : JsText.split sep s <> [].
Proof.
  induction s as [|c s IH]; cbn; [discriminate|].
  destruct (Ascii.eqb c sep); [discriminate|].
  destruct (JsText.split sep s); [contradiction|discriminate].
Qed.

Lemma split_free (sep : ascii) (s : string) :
  JsText.free sep s = true -> JsText.split sep s = [s].
Proof.
  induction s as [|c s IH]; cbn; [reflexivity|].
  intros H. apply andb_true_iff in H as (Hc & Hs).
  apply negb_true_iff in Hc. rewrite Hc, (IH Hs). reflexivity.
Qed.

Lemma split_app_sep (sep : ascii) (a b : string) :
  JsText.free sep a = true ->
  JsText.split sep (a ++ String sep b) = a :: JsText.split sep b.
Proof.
  induction a as [|c a IH]; cbn.
  - intros _. now rewrite Ascii.eqb_refl.
  - intros H. apply andb_true_iff in H as (Hc & Ha).
    apply negb_true_iff in Hc. rewrite Hc, (IH Ha). reflexivity.
Qed.

Lemma free_app (c : ascii) (a b : string) :
  JsText.free c (a ++ b) = JsText.free c a && JsText.free c b.
Proof.
  induction a as [|c' a IH]; cbn; [reflexivity|].
  now rewrite IH, andb_assoc.
Qed.

(** X9.  The two halves of a data URL, as [handleEdit] takes them to send
    an image back to the model, are the media type and the payload the URL
    was made of, as long as the media type has none of [,], [;] and [:] and
    the payload has no [,]. *)
Theorem data_url_read_back (mime payload : string) :
  JsText.free "," mime = true ->
  JsText.free ";" mime = true ->
  JsText.free ":" mime = true ->
  JsText.free "," payload = true ->
  let image := ("data:" ++ mime ++ ";base64," ++ payload)%string in
  Editor.base64DataOf image = Some payload
  /\ Editor.mimeTypeOf image = Some mime.
Proof.
  intros Hc Hs Hk Hp image. split.
  - unfold Editor.base64DataOf, image.
    replace ("data:" ++ mime ++ ";base64," ++ payload)%string
      with (("data:" ++ mime ++ ";base64") ++ String "," payload)%string
      by (cbn; do 5 f_equal; rewrite append_assoc; reflexivity).
    rewrite split_app_sep.
    + now rewrite (split_free _ _ Hp).
    + cbn. rewrite free_app, Hc. reflexivity.
  - unfold Editor.mimeTypeOf, image.
    replace ("data:" ++ mime ++ ";base64," ++ payload)%string
      with (("data:" ++ mime) ++ String ";" ("base64," ++ payload))%string
      by (cbn; do 5 f_equal; rewrite append_assoc; reflexivity).
    rewrite split_app_sep by (cbn; exact Hs).
    change ("data:" ++ mime)%string with ("data" ++ String ":" mime)%string.
    rewrite split_app_sep by reflexivity.
    now rewrite (split_free _ _ Hk).
Qed.

(** The data URL of a PNG image. *)
Lemma data_url_read_back_witness :
  let image := "data:image/png;base64,iVBORw0KGgo="%string in
  Editor.base64DataOf image = Some "iVBORw0KGgo="%string
  /\ Editor.mimeTypeOf image = Some "image/png"%string.
Proof.
  apply (data_url_read_back "image/png" "iVBORw0KGgo="); reflexivity.
Defined.

(** ** [trim] *)

Lemma trimStart_blank (s : string) :
  JsText.blank s = true -> JsText.trimStart s = ""%string.
Proof.
  induction s as [|c s IH]; cbn; [reflexivity|].
  intros H. apply andb_true_iff in H as (Hc & Hs). now rewrite Hc, IH.
Qed.

Lemma trimStart_not_blank (s : string) :
  JsText.blank s = false -> JsText.blank (JsText.trimStart s) = false.
Proof.
  induction s as [|c s IH]; cbn; [discriminate|].
  destruct (JsText.isWhiteSpace c) eqn:Hc; cbn.
  - exact IH.
  - intros _. now rewrite Hc.
Qed.

Lemma blank_list (s : string) :
  JsText.blank s = forallb JsText.isWhiteSpace (list_ascii_of_string s).
Proof. induction s as [|c s IH]; cbn; [reflexivity | now rewrite IH]. Qed.

Lemma blank_reverse (s : string) :
  JsText.blank (JsText.reverse s) = JsText.blank s.
Proof.
  unfold JsText.reverse.
  rewrite !blank_list, list_ascii_of_string_of_list_ascii.
  induction (list_ascii_of_string s) as [|c l IH]; [reflexivity|].
  cbn. rewrite forallb_app, IH. cbn. rewrite andb_true_r. apply andb_comm.
Qed.

Lemma blank_empty (s : string) : JsText.blank s = false -> s <> ""%string.
Proof. intros H ->. discriminate. Qed.

(** The guard [!s.trim()] lets through exactly the strings with a code unit
    that is not white space. *)
Lemma trim_truthy (s : string) :
  Js.truthy (JsText.trim s) = negb (JsText.blank s).
Proof.
  unfold JsText.trim, JsText.trimEnd.
  destruct (JsText.blank s) eqn:Hb.
  - rewrite (trimStart_blank _ Hb). reflexivity.
  - cbn [negb].
    assert (H : JsText.blank
                  (JsText.reverse
                     (JsText.trimStart
                        (JsText.reverse (JsText.trimStart s)))) = false).
    { rewrite blank_reverse. apply trimStart_not_blank.
      rewrite blank_reverse. now apply trimStart_not_blank. }
    destruct (JsText.reverse _); [discriminate|reflexivity].
Qed.

(** ** Undo and redo *)

(** X10.  Undo and redo are inverse of each other wherever they apply: on a
    state whose pointer is in the history, redo after an undo that was
    possible, and undo after a redo that was possible, give the state
    back. *)
Theorem editor_undo_redo_inverse (st : Editor.State) :
  Editor.wellFormed st ->
  (Editor.canUndo st = true -> Editor.redo (Editor.undo st) = st)
  /\ (Editor.canRedo st = true -> Editor.undo (Editor.redo st) = st).
Proof.
  intros Hwf. unfold Editor.canUndo, Editor.canRedo, Editor.undo, Editor.redo.
  split; intros Hc; rewrite Hc.
  - apply Z.ltb_lt in Hc.
    destruct Hwf as [(_ & Hp)|Hp]; [lia|].
    destruct st as [h p pr ip ic cb dg ds cs]. cbn in *.
    destruct (Z.ltb_spec (p - 1) (Z.of_nat (List.length h) - 1)); [|lia].
    unfold Editor.setPointer. cbn. f_equal. lia.
  - apply Z.ltb_lt in Hc.
    destruct Hwf as [(Hh & Hp)|Hp].
    + rewrite Hh in Hc. cbn in Hc. lia.
    + destruct st as [h p pr ip ic cb dg ds cs]. cbn in *.
      destruct (Z.ltb_spec 0 (p + 1)); [|lia].
      unfold Editor.setPointer. cbn. f_equal. lia.
Qed.

Lemma undo_fields (st : Editor.State) :
  Editor.history (Editor.undo st) = Editor.history st
  /\ Editor.pointer (Editor.undo st)
     = Z.min (Editor.pointer st) (Z.max 0 (Editor.pointer st - 1)).
Proof.
  unfold Editor.undo.
  destruct (Z.ltb_spec 0 (Editor.pointer st)); cbn; split;
    try reflexivity; lia.
Qed.

Lemma redo_fields (st : Editor.State) :
  Editor.history (Editor.redo st) = Editor.history st
  /\ Editor.pointer (Editor.redo st)
     = Z.max (Editor.pointer st)
         (Z.min (Z.of_nat (List.length (Editor.history st)) - 1)
                (Editor.pointer st + 1)).
Proof.
  unfold Editor.redo.
  destruct (Z.ltb_spec (Editor.pointer st)
              (Z.of_nat (List.length (Editor.history st)) - 1)); cbn; split;
    try reflexivity; lia.
Qed.

(** X11.  Undo and redo never touch the history and never leave it: [n]
    undos bring the pointer down by [n] but not below the first entry, [n]
    redos bring it up by [n] but not beyond the last one. *)
Theorem editor_undo_redo_bounded (st : Editor.State) (n : nat) :
  let undone := Nat.iter n Editor.undo st in
  let redone := Nat.iter n Editor.redo st in
  Editor.history undone = Editor.history st
  /\ Editor.pointer undone
     = Z.min (Editor.pointer st) (Z.max 0 (Editor.pointer st - Z.of_nat n))
  /\ Editor.history redone = Editor.history st
  /\ Editor.pointer redone
     = Z.max (Editor.pointer st)
         (Z.min (Z.of_nat (List.length (Editor.history st)) - 1)
                (Editor.pointer st + Z.of_nat n)).
Proof.
  cbn zeta. induction n as [|n (U1 & U2 & R1 & R2)].
  - cbn. repeat split; lia.
  - change (Nat.iter (S n) Editor.undo st)
      with (Editor.undo (Nat.iter n Editor.undo st)).
    change (Nat.iter (S n) Editor.redo st)
      with (Editor.redo (Nat.iter n Editor.redo st)).
    destruct (undo_fields (Nat.iter n Editor.undo st)) as (-> & ->).
    destruct (redo_fields (Nat.iter n Editor.redo st)) as (-> & ->).
    rewrite U1, U2, R1, R2. repeat split; lia.
Qed.

(** ** A new image *)

Lemma pushImage_fields (st : Editor.State) (image : string) :
  Editor.hasImage st = true ->
  let st' := Editor.pushImage st image st in
  0 <= Editor.pointer st < Z.of_nat (List.length (Editor.history st))
  /\ Editor.history st'
     = firstn (Z.to_nat (Editor.pointer st + 1)) (Editor.history st)
       ++ [image]
  /\ Editor.pointer st' = Editor.pointer st + 1
  /\ Editor.currentImage st' = Some image
  /\ Editor.canRedo st' = false
  /\ Editor.canUndo st' = true.
Proof.
  intros Hi st'.
  assert (Hp : 0 <= Editor.pointer st
               < Z.of_nat (List.length (Editor.history st))).
  { unfold Editor.hasImage, Editor.currentImage in Hi.
    destruct (Z.leb_spec 0 (Editor.pointer st));
      destruct (Z.ltb_spec (Editor.pointer st)
                  (Z.of_nat (List.length (Editor.history st))));
      cbn in Hi; try discriminate; lia. }
  assert (Hh : Editor.history st'
               = firstn (Z.to_nat (Editor.pointer st + 1)) (Editor.history st)
                 ++ [image]).
  { unfold st', Editor.pushImage. cbn. rewrite slice0_prefix by lia.
    reflexivity. }
  assert (Hlen : Z.of_nat (List.length (Editor.history st'))
                 = Editor.pointer st + 2).
  { rewrite Hh, length_app, length_firstn. cbn. lia. }
  assert (Hptr : Editor.pointer st' = Editor.pointer st + 1).
  { unfold st', Editor.pushImage. cbn. rewrite slice0_prefix by lia.
    rewrite length_app, length_firstn. cbn. lia. }
  split; [exact Hp|]. split; [exact Hh|]. split; [exact Hptr|].
  split; [|split].
  - unfold Editor.currentImage. rewrite Hlen, Hptr.
    destruct (Z.leb_spec 0 (Editor.pointer st + 1)); [|lia].
    destruct (Z.ltb_spec (Editor.pointer st + 1) (Editor.pointer st + 2));
      [|lia].
    cbn [andb]. rewrite Hh, nth_error_app2 by (rewrite length_firstn; lia).
    rewrite length_firstn.
    replace (Z.to_nat (Editor.pointer st + 1)
             - Nat.min (Z.to_nat (Editor.pointer st + 1))
                       (List.length (Editor.history st)))%nat
      with 0%nat by lia.
    reflexivity.
  - unfold Editor.canRedo. rewrite Hlen, Hptr. apply Z.ltb_ge. lia.
  - unfold Editor.canUndo. rewrite Hptr. apply Z.ltb_lt. lia.
Qed.

Lemma undo_after_push (st st' : Editor.State) (image : string) :
  0 <= Editor.pointer st < Z.of_nat (List.length (Editor.history st)) ->
  Editor.history st'
  = firstn (Z.to_nat (Editor.pointer st + 1)) (Editor.history st) ++ [image] ->
  Editor.pointer st' = Editor.pointer st + 1 ->
  Editor.currentImage (Editor.undo st') = Editor.currentImage st.
Proof.
  intros Hp Hh Hptr.
  destruct (undo_fields st') as (Uh & Up).
  unfold Editor.currentImage. rewrite Uh, Up, Hptr, Hh.
  replace (Z.min (Editor.pointer st + 1)
             (Z.max 0 (Editor.pointer st + 1 - 1)))
    with (Editor.pointer st) by lia.
  rewrite length_app, length_firstn. cbn [List.length].
  destruct (Z.leb_spec 0 (Editor.pointer st)); [|lia].
  destruct (Z.ltb_spec (Editor.pointer st)
              (Z.of_nat (List.length (Editor.history st)))); [|lia].
  destruct (Z.ltb_spec (Editor.pointer st)
              (Z.of_nat (Nat.min (Z.to_nat (Editor.pointer st + 1))
                           (List.length (Editor.history st)) + 1))); [|lia].
  cbn [andb].
  rewrite nth_error_app1 by (rewrite length_firstn; lia).
  rewrite nth_error_firstn.
  destruct (Nat.ltb_spec (Z.to_nat (Editor.pointer st))
              (Z.to_nat (Editor.pointer st + 1))); [reflexivity|lia].
Qed.

(** X12.  [executeCrop] does nothing unless a region is drawn, the image is
    on the page and current, and the canvas gives a context.  Otherwise it
    keeps the history up to the current image, drops the steps that had been
    undone, makes the cropped image the last and current one (nothing is
    left to redo, and an undo shows the uncropped image again), and leaves
    crop mode. *)
Theorem editor_crop_appends (page : Editor.CropPage) (st : Editor.State) :
  let st' := Editor.executeCrop page st in
  if cropReady page st then
    Editor.history st'
    = firstn (Z.to_nat (Editor.pointer st + 1)) (Editor.history st)
      ++ [Editor.toDataURL page]
    /\ Editor.currentImage st' = Some (Editor.toDataURL page)
    /\ Editor.canRedo st' = false
    /\ Editor.currentImage (Editor.undo st') = Editor.currentImage st
    /\ Editor.isCropping st' = false
    /\ Editor.cropBox st' = None
  else st' = st.
Proof.
  cbn zeta. unfold cropReady, Editor.executeCrop.
  destruct (Editor.cropBox st) as [box|]; [|reflexivity].
  destruct (Editor.imagePresent page); cbn [andb]; [|reflexivity].
  destruct (Editor.hasImage st) eqn:Hi; cbn [andb]; [|reflexivity].
  destruct (Editor.context2d page); [|reflexivity].
  destruct (pushImage_fields st (Editor.toDataURL page) Hi)
    as (Hp & Hh & Hptr & Hc & Hr & _).
  set (pushed := Editor.pushImage st (Editor.toDataURL page) st) in *.
  split; [exact Hh|]. split; [exact Hc|]. split; [exact Hr|].
  split; [|split; reflexivity].
  apply (undo_after_push st _ (Editor.toDataURL page)); assumption.
Qed.

(** X13.  [handleEdit] does nothing when there is no current image, when
    the prompt is blank or when an edit is running.  Otherwise it ends with
    the busy flag off, whatever happened; the history, the pointer and the
    prompt are untouched unless the answer brought an image, and then the
    image of the first part with inline data becomes the last and current
    entry, the undone steps are dropped and the prompt is cleared. *)
Theorem editor_edit_outcome (keyCheck : bool + GenAIModels.JsError)
    (outcome : Editor.Outcome) (st : Editor.State) :
  let st' := Editor.handleEdit keyCheck outcome st in
  if Editor.hasImage st && negb (JsText.blank (Editor.prompt st))
     && negb (Editor.isProcessing st)
  then
    Editor.isProcessing st' = false
    /\ match arrivedImage keyCheck outcome with
       | Some blob =>
           Editor.history st'
           = firstn (Z.to_nat (Editor.pointer st + 1)) (Editor.history st)
             ++ [GenAIModels.pngDataUrl blob]
           /\ Editor.currentImage st' = Some (GenAIModels.pngDataUrl blob)
           /\ Editor.canRedo st' = false
           /\ Editor.currentImage (Editor.undo st') = Editor.currentImage st
           /\ Editor.prompt st' = ""%string
       | None =>
           Editor.history st' = Editor.history st
           /\ Editor.pointer st' = Editor.pointer st
           /\ Editor.prompt st' = Editor.prompt st
           /\ exists shown,
                (shown = Editor.OpenSelectKey
                 \/ exists t, shown = Editor.Alert t)
                /\ In shown (Editor.calls st')
       end
  else st' = st.
Proof.
  cbn zeta. unfold Editor.handleEdit, Editor.accepts.
  rewrite trim_truthy.
  destruct (Editor.hasImage st && negb (JsText.blank (Editor.prompt st))
            && negb (Editor.isProcessing st)) eqn:Hacc; [|reflexivity].
  assert (Hi : Editor.hasImage st = true).
  { destruct (Editor.hasImage st); [reflexivity|discriminate]. }
  destruct keyCheck as [hasKey|err].
  - unfold arrivedImage, Editor.settleEdit.
    destruct outcome as [response|err].
    + destruct (GenAIModels.imageOf response) as [blob|].
      * split; [reflexivity|].
        destruct (pushImage_fields st (GenAIModels.pngDataUrl blob) Hi)
          as (Hp & Hh & Hptr & Hc & Hr & _).
        set (url := GenAIModels.pngDataUrl blob) in *.
        split; [exact Hh|]. split; [exact Hc|]. split; [exact Hr|].
        split; [|reflexivity].
        apply (undo_after_push st _ url); assumption.
      * split; [reflexivity|].
        unfold Editor.requestEdit.
        destruct hasKey, (Editor.currentImage st); cbn;
          (split; [reflexivity|]); (split; [reflexivity|]);
          (split; [reflexivity|]);
          eexists; (split; [|apply in_or_app; right; left; reflexivity]);
          right; eexists; reflexivity.
    + split; [reflexivity|].
      unfold Editor.editFailed, Editor.requestEdit.
      destruct (GenAIModels.entityNotFound err), hasKey,
        (Editor.currentImage st); cbn;
        (split; [reflexivity|]); (split; [reflexivity|]);
        (split; [reflexivity|]);
        eexists; (split; [|apply in_or_app; right; left; reflexivity]);
        first [left; reflexivity | right; eexists; reflexivity].
  - unfold arrivedImage. split; [reflexivity|].
    unfold Editor.editFailed.
    destruct (GenAIModels.entityNotFound err); cbn;
      (split; [reflexivity|]); (split; [reflexivity|]);
      (split; [reflexivity|]);
      eexists; (split; [|apply in_or_app; right; left; reflexivity]);
      first [left; reflexivity | right; eexists; reflexivity].
Qed.

(** * The chat *)

Lemma exchanges_app_bounded (n : nat) (ms : list Chat.ChatMessage)
    (question answer : string) :
  (List.length ms <= n)%nat ->
  Chat.exchanges ms = true ->
  Js.truthy answer = true ->
  Chat.exchanges
    (ms ++ [{| Chat.role := Chat.user; Chat.text := question |};
            {| Chat.role := Chat.model; Chat.text := answer |}]) = true.
Proof.
  revert ms. induction n as [|n IH]; intros ms Hn Hms Ha.
  - destruct ms; [|cbn in Hn; lia]. cbn. now rewrite Ha.
  - destruct ms as [|u [|m rest]]; cbn in *.
    + now rewrite Ha.
    + destruct (Chat.role u); discriminate.
    + destruct (Chat.role u); [|discriminate].
      destruct (Chat.role m); [discriminate|].
      apply andb_true_iff in Hms as (-> & Hrest). cbn.
      apply IH; [lia|exact Hrest|exact Ha].
Qed.

Lemma exchanges_app (ms : list Chat.ChatMessage) (question answer : string) :
  Chat.exchanges ms = true ->
  Js.truthy answer = true ->
  Chat.exchanges
    (ms ++ [{| Chat.role := Chat.user; Chat.text := question |};
            {| Chat.role := Chat.model; Chat.text := answer |}]) = true.
Proof. apply (exchanges_app_bounded (List.length ms)). lia. Qed.

Lemma last_default {A} (a : A) (l : list A) (d d' : A) :
  last (a :: l) d = last (a :: l) d'.
Proof.
  revert a. induction l as [|b l IH]; intros a; [reflexivity|].
  change (last (b :: l) d = last (b :: l) d'). apply IH.
Qed.

Lemma typed_fields (typed : list string) (st : Chat.State) :
  fold_left (fun s text => Chat.setInput text s) typed st
  = Chat.setInput (last typed (Chat.input st)) st.
Proof.
  revert st. induction typed as [|t typed IH]; intros st.
  - destruct st; reflexivity.
  - cbn [fold_left]. rewrite IH.
    destruct typed as [|t' typed]; [reflexivity|].
    rewrite (last_default t' typed _ (Chat.input st)).
    change (last (t :: t' :: typed) (Chat.input st))
      with (last (t' :: typed) (Chat.input st)).
    reflexivity.
Qed.

Lemma orElse_truthy (v : option string) (fallback : string) :
  Js.truthy fallback = true -> Js.truthy (JsText.orElse v fallback) = true.
Proof.
  intros H. unfold JsText.orElse.
  destruct v as [s|]; [|exact H].
  destruct (Js.truthy s) eqn:Hs; [exact Hs|exact H].
Qed.

Lemma accepts_blank (st : Chat.State) :
  Chat.accepts st
  = negb (JsText.blank (Chat.input st) || Chat.isTyping st).
Proof. unfold Chat.accepts. now rewrite trim_truthy, negb_orb. Qed.

(** The messages after an accepted send, whatever the setup did. *)
Lemma send_exchange (setup : Chat.Setup) (typed : list string)
    (reply : option (option string)) (st : Chat.State) :
  Chat.accepts st = true ->
  let st' := Chat.step st (Chat.Send setup typed reply) in
  Chat.isTyping st' = false
  /\ (exists answer,
        Chat.messages st'
        = Chat.messages st
          ++ [{| Chat.role := Chat.user; Chat.text := Chat.input st |};
              {| Chat.role := Chat.model; Chat.text := answer |}]
        /\ Js.truthy answer = true)
  /\ (oneChat st -> oneChat st').
Proof.
  intros Hacc. cbn zeta. cbn [Chat.step]. rewrite Hacc.
  unfold Chat.sendBegin.
  destruct st as [ms inp ty ref n cs].
  cbn [Chat.input Chat.chatRef Chat.addMessage Chat.setInput
       Chat.setIsTyping Chat.messages Chat.isTyping Chat.chatsCreated
       Chat.calls].
  destruct setup, ref as [chat|]; cbn -[fold_left];
    rewrite ?typed_fields; cbn.
  all: split; [destruct reply; reflexivity|].
  all: split.
  all: try (destruct reply; cbn; eexists;
            (split; [rewrite <- app_assoc; reflexivity|]);
            first [apply orElse_truthy; reflexivity | reflexivity]).
  all: unfold oneChat; intros (Hr & Hc); destruct reply; cbn in *.
  all: destruct Hr as [(Hr & Hn)|(Hr & Hn)]; try discriminate.
  all: try (injection Hr as ->).
  all: subst n.
  all: split; [first [left; split; reflexivity | right; split; reflexivity]|].
  all: rewrite ?Forall_app; repeat split; try assumption.
  all: repeat constructor.
Qed.

Lemma step_chat (st : Chat.State) (ev : Chat.Event) :
  Chat.isTyping st = false /\ Chat.exchanges (Chat.messages st) = true
  /\ oneChat st ->
  Chat.isTyping (Chat.step st ev) = false
  /\ Chat.exchanges (Chat.messages (Chat.step st ev)) = true
  /\ oneChat (Chat.step st ev).
Proof.
  intros (Ht & Hm & Hc). destruct ev as [t|setup typed reply].
  - cbn. auto.
  - destruct (Chat.accepts st) eqn:Hacc.
    + destruct (send_exchange setup typed reply st Hacc)
        as (Ht' & (answer & Hm' & Ha) & Hc').
      split; [exact Ht'|]. split; [|exact (Hc' Hc)].
      rewrite Hm'. now apply exchanges_app.
    + cbn [Chat.step]. rewrite Hacc. auto.
Qed.

(** X14.  Whatever the user types and sends and however the calls end, the
    chat log is a sequence of exchanges, a user message followed by one
    model message that is not empty, nothing is left waiting for an answer,
    and all messages were sent to one chat, the first that could be made. *)
Theorem chat_log_is_exchanges (evs : list Chat.Event) :
  let st := Chat.run Chat.initial evs in
  Chat.isTyping st = false
  /\ Chat.exchanges (Chat.messages st) = true
  /\ oneChat st.
Proof.
  cbn zeta.
  assert (H : forall st,
             Chat.isTyping st = false
             /\ Chat.exchanges (Chat.messages st) = true /\ oneChat st ->
             Chat.isTyping (Chat.run st evs) = false
             /\ Chat.exchanges (Chat.messages (Chat.run st evs)) = true
             /\ oneChat (Chat.run st evs)).
  { induction evs as [|ev evs IH]; intros st Hst; [exact Hst|].
    change (Chat.run st (ev :: evs)) with (Chat.run (Chat.step st ev) evs).
    apply IH, step_chat, Hst. }
  apply H. split; [reflexivity|]. split; [reflexivity|].
  split; [left; split; reflexivity|constructor].
Qed.

(** X15.  A send does nothing while the input has only white space or an
    answer is awaited.  Otherwise, when the chat can be set up, the log gets
    the input as it was typed and then the answer: the text of the response,
    a fixed sentence if the response has none, an error sentence if the call
    failed; the message goes out as typed, and the input field holds what
    was typed while waiting. *)
Theorem chat_send_appends_exchange (typed : list string)
    (reply : option (option string)) (st : Chat.State) :
  let st' := Chat.step st (Chat.Send Chat.SetupDone typed reply) in
  if JsText.blank (Chat.input st) || Chat.isTyping st then st' = st
  else
    Chat.messages st'
    = Chat.messages st
      ++ [{| Chat.role := Chat.user; Chat.text := Chat.input st |};
          {| Chat.role := Chat.model;
             Chat.text :=
               match reply with
               | Some responseText =>
                   JsText.orElse responseText Chat.fallbackText
               | None => Chat.errorText
               end |}]
    /\ Chat.isTyping st' = false
    /\ Chat.input st' = last typed ""%string
    /\ exists chat,
         Chat.calls st'
         = Chat.calls st
           ++ match Chat.chatRef st with
              | Some _ => []
              | None => [Chat.ChatsCreate]
              end
           ++ [Chat.SendMessage chat (Chat.input st)].
Proof.
  cbn zeta. cbn [Chat.step]. rewrite accepts_blank.
  destruct (JsText.blank (Chat.input st) || Chat.isTyping st);
    [reflexivity|].
  cbn [negb]. unfold Chat.sendBegin.
  destruct st as [ms inp ty ref n cs].
  cbn [Chat.input Chat.chatRef Chat.addMessage Chat.setInput
       Chat.setIsTyping Chat.messages Chat.isTyping Chat.chatsCreated
       Chat.calls].
  destruct ref as [chat|]; cbn -[fold_left]; rewrite typed_fields;
    destruct reply; cbn; rewrite <- !app_assoc;
    (repeat split; eexists; reflexivity).
Qed.

(** * The image generator *)

(** X16.  Of the parts of a response only the first with inline data is
    used; the images of later parts are never looked at. *)
Theorem first_inline_data_wins (ps : list GenAI.Part) :
  GenAIModels.firstInlineData ps = hd_error (inlineBlobs ps).
Proof.
  induction ps as [|part ps IH]; [reflexivity|].
  cbn. destruct (GenAI.inlineData part); [reflexivity|exact IH].
Qed.

Lemma step_gallery (st : Generator.State) (ev : Generator.Event) :
  Generator.images (Generator.step st ev) = Generator.images st
  \/ exists blob promptText now,
       Generator.images (Generator.step st ev)
       = {| Generator.Image.url := GenAIModels.pngDataUrl blob;
            Generator.Image.prompt := promptText;
            Generator.Image.timestamp := now |} :: Generator.images st.
Proof.
  destruct ev as [t|s|seen hasKey|seen outcome now|err]; cbn.
  - now left.
  - now left.
  - destruct hasKey; now left.
  - destruct outcome as [response|err].
    + destruct (GenAIModels.imageOf response) as [blob|]; cbn.
      * right. now exists blob, (Generator.prompt seen), now.
      * now left.
    + unfold Generator.generateFailed.
      destruct (GenAIModels.entityNotFound err); now left.
  - unfold Generator.generateFailed.
    destruct (GenAIModels.entityNotFound err); now left.
Qed.

(** X17.  The gallery only grows, and at the front: after any events it is
    the gallery before, preceded by the images added, each a PNG data URL
    made of the payload of a response. *)
Theorem gallery_grows_at_front (st : Generator.State)
    (evs : list Generator.Event) :
  exists added,
    Generator.images (Generator.run st evs) = added ++ Generator.images st
    /\ Forall (fun image => exists blob,
                 Generator.Image.url image = GenAIModels.pngDataUrl blob)
              added.
Proof.
  revert st. induction evs as [|ev evs IH]; intros st.
  - exists []. split; [reflexivity|constructor].
  - change (Generator.run st (ev :: evs))
      with (Generator.run (Generator.step st ev) evs).
    destruct (IH (Generator.step st ev)) as (added & Himg & Hadded).
    destruct (step_gallery st ev) as [Hs|(blob & p & now & Hs)].
    + exists added. now rewrite Himg, Hs.
    + exists (added ++ [{| Generator.Image.url := GenAIModels.pngDataUrl blob;
                           Generator.Image.prompt := p;
                           Generator.Image.timestamp := now |}]).
      split.
      * now rewrite Himg, Hs, <- app_assoc.
      * apply Forall_app. split; [exact Hadded|].
        constructor; [now exists blob|constructor].
Qed.

(** X18.  [handleGenerate] does nothing when the prompt is blank or a
    generation is running.  Otherwise it ends with the busy flag off.  An
    answer with an image puts the image first in the gallery, with the
    prompt it was asked with and the time of its arrival; any answer clears
    the prompt, with or without an image; a failure leaves the gallery and
    the prompt as they were. *)
Theorem generate_outcome (keyCheck : bool + GenAIModels.JsError)
    (outcome : Generator.Outcome) (now : Z) (st : Generator.State) :
  let st' := Generator.handleGenerate keyCheck outcome now st in
  if JsText.blank (Generator.prompt st) || Generator.isGenerating st
  then st' = st
  else
    Generator.isGenerating st' = false
    /\ match keyCheck, outcome with
       | inl _, Generator.Responded response =>
           Generator.prompt st' = ""%string
           /\ Generator.images st'
              = match GenAIModels.imageOf response with
                | Some blob =>
                    [{| Generator.Image.url := GenAIModels.pngDataUrl blob;
                        Generator.Image.prompt := Generator.prompt st;
                        Generator.Image.timestamp := now |}]
                | None => []
                end ++ Generator.images st
       | _, _ =>
           Generator.prompt st' = Generator.prompt st
           /\ Generator.images st' = Generator.images st
       end.
Proof.
  cbn zeta. unfold Generator.handleGenerate, Generator.accepts.
  rewrite trim_truthy, <- negb_orb.
  destruct (JsText.blank (Generator.prompt st) || Generator.isGenerating st);
    [reflexivity|].
  cbn [negb]. split.
  - destruct keyCheck; reflexivity.
  - destruct keyCheck as [hasKey|err]; [destruct outcome as [response|err]|].
    + unfold Generator.settleImage.
      destruct (GenAIModels.imageOf response); destruct hasKey; cbn;
        split; reflexivity.
    + unfold Generator.settleImage, Generator.generateFailed.
      destruct (GenAIModels.entityNotFound err), hasKey; cbn;
        split; reflexivity.
    + unfold Generator.generateFailed.
      destruct outcome, (GenAIModels.entityNotFound err); cbn;
        split; reflexivity.
Qed.

(** * Closed instances of the properties of whole runs *)

(** A chunk is queued, plays to its end, and the session is stopped. *)
Lemma nextStartTime_never_decreases_witness :
  let evs := [Message (Sample.at_ 5) (chunkMessage "AAAA");
              Ended 0%nat; Stop] in
  Forall (fun ev => interrupts ev = false) evs
  /\ nextStartTime initialState
     <= nextStartTime (Sample.run initialState evs).
Proof.
  intros evs.
  assert (H : Forall (fun ev => interrupts ev = false) evs)
    by (repeat constructor).
  split; [exact H|].
  exact (proj1 (nextStartTime_never_decreases Sample.encode Sample.decode
                  Sample.decodeAudioData initialState evs H)).
Defined.


(** Two sources play; the second ends first, twice, and a source that never
    was ends too. *)
Lemma all_sources_ended_witness :
  let st := Sample.deliver initialState
              [(Sample.at_ 0, chunkMessage "AAAA");
               (Sample.at_ 0, chunkMessage "AAAA")] in
  let st' := Sample.run st (map Ended [1; 0; 1; 5]%nat) in
  activeSources st = [0; 1]%nat
  /\ activeSources st' = []
  /\ isGeminiSpeaking st' = false
  /\ callsSince st st' = []
  /\ nextStartTime st' = nextStartTime st.
Proof.
  intros st st'. split; [reflexivity|].
  assert (Hne : activeSources st <> []) by discriminate.
  assert (Hin : incl (activeSources st) [1; 0; 1; 5]%nat).
  { assert (E : activeSources st = [0; 1]%nat) by reflexivity.
    rewrite E. intros source [<-|[<-|[]]]; cbn; auto. }
  destruct (all_sources_ended Sample.encode Sample.decode
              Sample.decodeAudioData st [1; 0; 1; 5]%nat Hne Hin)
    as (H1 & H2 & H3 & H4).
  split; [exact H1|]. split; [exact H2|]. split; [exact H3|exact H4].
Defined.

(** An image is loaded and cropped; the crop is undone and redone. *)
Lemma editor_undo_redo_inverse_witness :
  let loaded := Editor.fileLoaded "data:image/png;base64,AAAA"
                  Editor.initial in
  let st := Editor.pushImage loaded "data:image/png;base64,BBBB" loaded in
  Editor.canUndo st = true
  /\ Editor.redo (Editor.undo st) = st
  /\ Editor.canRedo (Editor.undo st) = true
  /\ Editor.undo (Editor.redo (Editor.undo st)) = Editor.undo st.
Proof.
  intros loaded st.
  assert (Hst : Editor.wellFormed st)
    by (right; vm_compute; split; [discriminate|reflexivity]).
  assert (Hun : Editor.wellFormed (Editor.undo st))
    by (right; vm_compute; split; [discriminate|reflexivity]).
  split; [reflexivity|].
  split; [apply (editor_undo_redo_inverse st Hst); reflexivity|].
  split; [reflexivity|].
  apply (editor_undo_redo_inverse (Editor.undo st) Hun); reflexivity.
Defined.
